(** * HyperLiquid listing alerts: the two monitors and their change detection

    A shallow embedding of [src/token_details_monitor.py] (class
    [TokenDetailsMonitor]) and of [src/hyperliquid_monitor.py] (class
    [HyperLiquidMonitor]).

    Python dictionaries are finite maps ([gmap]), Python sets are finite
    sets ([gset]), the directory read by [os.listdir] is the list of its
    entries together with what opening and parsing each one gives, and the
    calls made to the Discord notifier are collected in a log. *)

From Stdlib Require Import ZArith QArith String Ascii.
From stdpp Require Import gmap strings list fin_maps.

#[local] Open Scope string_scope.
#[local] Open Scope list_scope.
#[local] Open Scope nat_scope.

(** ** Values produced by [json.load] *)

#[local] Unset Elimination Schemes.

(** The value of a Python number: finite, named by the rational number it
    denotes (Python compares numbers by value, so this is all that [==] looks
    at), or one of the floats that are not finite: an infinity, or [NaN],
    which [json.load] reads from the literal [NaN]. *)
Inductive number : Type :=
  | Finite (q : Q)
  | Infinite (negative : bool)
  | NaN.

(** A parsed JSON document. *)
Inductive json : Type :=
  | JNull
  | JBool (b : bool)
  | JInt (n : Z)
  | JFloat (x : number)
  | JStr (s : string)
  | JList (l : list json)
  | JDict (d : gmap string json).

#[local] Set Elimination Schemes.

(** A dictionary with string keys, as [json.load] builds for a JSON object. *)
Abbreviation record := (gmap string json).

(** [bool] is a subclass of [int] in Python, and [int] and [float] compare by
    value: [True == 1 == 1.0]. *)
Definition num_view (v : json) : option number :=
  match v with
  | JBool b => Some (Finite (if b then 1%Q else 0%Q))
  | JInt n => Some (Finite (inject_Z n))
  | JFloat x => Some x
  | _ => None
  end.

(** [==] on numbers: [NaN] is equal to nothing, itself included. *)
Definition number_eq (a b : number) : bool :=
  match a, b with
  | Finite p, Finite q => Qeq_bool p q
  | Infinite s, Infinite t => Bool.eqb s t
  | _, _ => false
  end.

Definition is_NaN (v : json) : bool :=
  match v with
  | JFloat NaN => true
  | _ => false
  end.

(** Python's [v == w] on parsed JSON.  The elements of two lists, and the
    values of two dictionaries, are compared with [is] before [==]: as
    [json.load] returns the one object [json.decoder.NaN] for every literal
    [NaN], a [NaN] inside a list or a dictionary is equal to a [NaN] at the
    same place, while [NaN == NaN] itself is false. *)
Fixpoint py_eq (v w : json) {struct v} : bool :=
  match v, w with
  | JNull, JNull => true
  | JStr s, JStr t => String.eqb s t
  | JList l, JList l' =>
      (fix list_eq (l l' : list json) : bool :=
         match l, l' with
         | [], [] => true
         | x :: l, y :: l' =>
             (is_NaN x && is_NaN y || py_eq x y) && list_eq l l'
         | _, _ => false
         end) l l'
  | JDict d, JDict d' =>
      Nat.eqb (size d) (size d') &&
      map_fold (λ k x acc,
                 acc && match d' !! k with
                        | Some y => is_NaN x && is_NaN y || py_eq x y
                        | None => false
                        end) true d
  | _, _ =>
      match num_view v, num_view w with
      | Some a, Some b => number_eq a b
      | _, _ => false
      end
  end.

(** Python's [v != w]. *)
Definition py_ne (v w : json) : bool := negb (py_eq v w).

(** [v is not None] *)
Definition is_not_None (v : json) : bool :=
  match v with
  | JNull => false
  | _ => true
  end.

(** [d.get(key)]: the value, or [None] when the key is missing. *)
Definition dict_get (d : record) (key : string) : json :=
  default JNull (d !! key).

(** ** The console *)

(** A Python [str] is given by its UTF-8 bytes; a lone surrogate, which
    [json.load] builds from an escape such as [\ud800] that has no partner,
    by the three bytes [ED A0..BF 80..BF] that the [surrogatepass] handler
    gives it (in UTF-8 proper the byte [ED] is followed by [80..9F]). *)
Fixpoint has_lone_surrogate (s : string) : bool :=
  match s with
  | EmptyString => false
  | String a rest =>
      match rest with
      | String b _ => (nat_of_ascii a =? 237) && (160 <=? nat_of_ascii b)
      | EmptyString => false
      end || has_lone_surrogate rest
  end.

(** [print] of a text that holds [s], on a console that encodes with UTF-8:
    it raises [UnicodeEncodeError] when [s] holds a lone surrogate.  The names
    of the files of the token details directory, and the token ids that name
    them, are taken to be printable. *)
Definition printable_text (s : string) : bool := negb (has_lone_surrogate s).

(** [print] of a text that holds [str(v)].  The text of a number, [None],
    [True] or [False] is ASCII, and the text of a list or a dictionary is
    built with [repr], which escapes the surrogates: only a [str] can make
    [print] raise. *)
Definition printable (v : json) : bool :=
  match v with
  | JStr s => printable_text s
  | _ => true
  end.

(** ** String methods *)

(** [s.endswith(suffix)] *)
Definition endswith (s suffix : string) : bool :=
  let n := String.length s in
  let k := String.length suffix in
  (k <=? n)%nat && String.eqb (substring (n - k) k s) suffix.

(** [s.replace(old, new)] for a non-empty [old]: the occurrences of [old] are
    found from the left and do not overlap.  [skip] counts the characters of
    an occurrence that remain to be dropped. *)
Fixpoint replace_from (skip : nat) (old new s : string) : string :=
  match s with
  | EmptyString => EmptyString
  | String c s' =>
      match skip with
      | S k => replace_from k old new s'
      | O =>
          if String.prefix old s
          then (new ++ replace_from (String.length old - 1) old new s')%string
          else String c (replace_from 0 old new s')
      end
  end.

Definition replace (old new s : string) : string := replace_from 0 old new s.

(** The number of constructors of a document, to reason by induction on
    documents nested in lists and dictionaries. *)
Fixpoint json_size (v : json) : nat :=
  match v with
  | JList l => S (foldr (λ x n, json_size x + n) 0 l)
  | JDict d => S (map_fold (λ _ x n, json_size x + n) 0 d)
  | _ => 1
  end.

(** ** [token_details_monitor.py]: class [TokenDetailsMonitor] *)

Module TokenDetails.

(** [self.ignored_fields = {'markPx', 'prevDayPx'}] *)
Definition ignored_fields : gset string := {[ "markPx"; "prevDayPx" ]}.

(** The two tables of the monitor: [self.price_transition_states], the
    trading status of each file, and [self.previous_states], the cleaned
    record last stored for each file. *)
Record monitor : Type := Monitor {
  price_transition_states : gmap string bool;
  previous_states : gmap string record;
}.

(** What [open] followed by [json.load] gives for a directory entry: an
    exception (caught by the [except] of the loop body) or the parsed
    document. *)
Inductive read_result : Type :=
  | ReadError
  | Loaded (data : json).

(** [os.listdir(self.token_details_dir)], each name with the outcome of
    reading it during the cycle. *)
Abbreviation directory := (list (string * read_result)).

(** The [changes] dictionary: field name to [(old_value, new_value)]. *)
Abbreviation change_set := (gmap string (json * json)).

(** The calls made to the notifier. *)
Inductive call : Type :=
  | send_new_token_alert (token_id : string) (token_data : json)
  | send_trading_status_alert (token_id : string) (price : json)
  | send_discord_alert (token_id : string) (changes : change_set).

(** [filename.replace('.json', '')] *)
Definition token_id_of (filename : string) : string :=
  replace ".json" "" filename.

(** [{k: v for k, v in data.items() if k not in self.ignored_fields}] *)
Definition remove_ignored (data : record) : record :=
  filter (λ kv, kv.1 ∉ ignored_fields) data.

(** [token_data.get('midPx') is not None] *)
Definition trading (data : record) : bool :=
  is_not_None (dict_get data "midPx").

(** First loop of the comparison: changed or new fields. *)
Definition changed_or_new (was_trading : bool)
    (previous_data cleaned_current : record) : change_set :=
  map_fold (λ key value changes,
              if bool_decide (key = "midPx") && was_trading then changes
              else match previous_data !! key with
                   | None => <[key := (JNull, value)]> changes
                   | Some old =>
                       if py_ne old value
                       then <[key := (old, value)]> changes
                       else changes
                   end)
           ∅ cleaned_current.

(** Second loop of the comparison: removed fields. *)
Definition removed (previous_data cleaned_current : record)
    (changes : change_set) : change_set :=
  map_fold (λ key old changes,
              match cleaned_current !! key with
              | None => <[key := (old, JNull)]> changes
              | Some _ => changes
              end)
           changes previous_data.

Definition detect_changes (was_trading : bool)
    (previous_data cleaned_current : record) : change_set :=
  removed previous_data cleaned_current
          (changed_or_new was_trading previous_data cleaned_current).

(** The [print] calls of lines 204 to 206: they succeed when every field
    name of [changes] and both values of every entry are printable. *)
Definition printable_changes (changes : change_set) : bool :=
  map_fold (λ field entry ok,
              ok && printable_text field && printable entry.1 && printable entry.2)
           true changes.

(** The body of the [for] loop of [check_for_changes] for one file ending in
    [.json]: the new tables and the notifier calls, in order.  An exception
    ends the processing of the file, with what was written and called until
    then: a document that is not an object makes [current_data.get] raise,
    after the new-file check and before any table is written; the [print] of
    the price raises before the trading status alert and the write of the
    status; a [print] of the changes raises after the write of the status and
    before the change alert and the write of the record. *)
Definition process_file (self : monitor) (filename : string)
    (file : read_result) : monitor * list call :=
  match file with
  | ReadError => (self, [])
  | Loaded current_data =>
      let token_id := token_id_of filename in
      let new_file :=
        match previous_states self !! filename with
        | None => [send_new_token_alert token_id current_data]
        | Some _ => []
        end in
      match current_data with
      | JDict current =>
          let was_trading :=
            default false (price_transition_states self !! filename) in
          let is_trading := trading current in
          if negb was_trading && is_trading &&
             negb (printable (dict_get current "midPx"))
          then (self, new_file)
          else
            let tradeable :=
              if negb was_trading && is_trading
              then [send_trading_status_alert token_id (dict_get current "midPx")]
              else [] in
            let states :=
              <[filename := is_trading]> (price_transition_states self) in
            let cleaned_current := remove_ignored current in
            let previous_data :=
              default ∅ (previous_states self !! filename) in
            let changes :=
              detect_changes was_trading previous_data cleaned_current in
            let alert :=
              if Nat.eqb (size changes) 0 then []
              else [send_discord_alert token_id changes] in
            if printable_changes changes then
              ({| price_transition_states := states;
                  previous_states :=
                    <[filename := cleaned_current]> (previous_states self) |},
               new_file ++ tradeable ++ alert)
            else
              ({| price_transition_states := states;
                  previous_states := previous_states self |},
               new_file ++ tradeable)
      | _ => (self, new_file)
      end
  end.

(** [check_for_changes]: one pass over the directory.  The log pairs each
    notifier call with the file whose processing made it. *)
Fixpoint check_for_changes (self : monitor) (dir : directory)
    : monitor * list (string * call) :=
  match dir with
  | [] => (self, [])
  | (filename, file) :: rest =>
      if endswith filename ".json" then
        let '(self1, calls) := process_file self filename file in
        let '(self2, log) := check_for_changes self1 rest in
        (self2, map (pair filename) calls ++ log)
      else check_for_changes self rest
  end.

(** [load_initial_states], called once by [__init__] on empty tables. *)
Fixpoint load_initial_states (self : monitor) (dir : directory) : monitor :=
  match dir with
  | [] => self
  | (filename, file) :: rest =>
      let self1 :=
        if endswith filename ".json" then
          match file with
          | Loaded (JDict token_data) =>
              {| price_transition_states :=
                   <[filename := trading token_data]>
                     (price_transition_states self);
                 previous_states :=
                   <[filename := remove_ignored token_data]>
                     (previous_states self) |}
          | _ => self
          end
        else self in
      load_initial_states self1 rest
  end.

(** [TokenDetailsMonitor()] *)
Definition init (dir : directory) : monitor :=
  load_initial_states {| price_transition_states := ∅; previous_states := ∅ |} dir.

(** The [while True] loop of [main]: one directory reading per cycle. *)
Fixpoint run (self : monitor) (cycles : list directory)
    : monitor * list (string * call) :=
  match cycles with
  | [] => (self, [])
  | dir :: later =>
      let '(self1, log1) := check_for_changes self dir in
      let '(self2, log2) := run self1 later in
      (self2, log1 ++ log2)
  end.

(** The states the monitor can be in at the start of a cycle. *)
Inductive reachable : monitor → Prop :=
  | reachable_init dir : reachable (init dir)
  | reachable_cycle self dir :
      reachable self → reachable (check_for_changes self dir).1.

(** *** Notions used to state the properties *)

(** The entry of [changes] for one field, given its value in the stored
    record and in the cleaned current record. *)
Definition field_change (was_trading : bool) (key : string)
    (old new : option json) : option (json * json) :=
  match new, old with
  | Some value, _ =>
      if bool_decide (key = "midPx") && was_trading then None
      else match old with
           | None => Some (JNull, value)
           | Some o => if py_ne o value then Some (o, value) else None
           end
  | None, Some o => Some (o, JNull)
  | None, None => None
  end.

(** The calls of a log made while processing [filename]. *)
Definition calls_for (filename : string) (log : list (string * call)) : list call :=
  (filter (λ entry, entry.1 = filename) log).*2.

(** A file with a stored record has a stored status, and stored records hold
    no ignored field. *)
Definition stored_have_status (self : monitor) : Prop :=
  ∀ filename,
    is_Some (previous_states self !! filename) →
    is_Some (price_transition_states self !! filename).

Definition baseline_clean (self : monitor) : Prop :=
  ∀ filename (stored : record) key,
    previous_states self !! filename = Some stored →
    key ∈ ignored_fields → stored !! key = None.

Definition consistent (self : monitor) : Prop :=
  stored_have_status self ∧ baseline_clean self.

(** Every field name and every value of the record can be printed. *)
Definition printable_record (data : record) : Prop :=
  map_Forall (λ field value,
                printable_text field = true ∧ printable value = true) data.

(** No value of the record is [NaN] itself. *)
Definition NaN_free (data : record) : Prop :=
  map_Forall (λ _ value, is_NaN value = false) data.

(** A call as the notifier acts on it: [send_new_token_alert] reads nothing
    of [token_data] but [token_data.get('midPx')]. *)
Definition as_read (c : call) : call :=
  match c with
  | send_new_token_alert token_id (JDict token_data) =>
      send_new_token_alert token_id (dict_get token_data "midPx")
  | _ => c
  end.

(** The two records agree on a field: it is missing from both, or it has
    values that Python finds equal. *)
Definition same_field (previous_data cleaned_current : record) (key : string)
    : bool :=
  match previous_data !! key, cleaned_current !! key with
  | None, None => true
  | Some old, Some value => py_eq old value
  | _, _ => false
  end.

(** The two records differ in the field [key] and in no other. *)
Definition differ_only_in (previous_data cleaned_current : record)
    (key : string) : Prop :=
  same_field previous_data cleaned_current key = false ∧
  ∀ other, other ≠ key → same_field previous_data cleaned_current other = true.

(** [changes] has an entry exactly for the fields on which the two records
    disagree, [midPx] left out when [was_trading] holds and the current
    record has it; an entry holds the value of its field in either record,
    [None] for a missing one. *)
Definition lists_the_differences (was_trading : bool)
    (previous_data cleaned_current : record) (changes : change_set) : Prop :=
  ∀ key,
    (changes !! key = None ↔
     same_field previous_data cleaned_current key = true ∨
     (key = "midPx" ∧ was_trading = true ∧ is_Some (cleaned_current !! key))) ∧
    (∀ old new,
       changes !! key = Some (old, new) →
       old = default JNull (previous_data !! key) ∧
       new = default JNull (cleaned_current !! key)).

(** *** Notions used for whole directories *)

(** The body of the [for] loop of [load_initial_states] for one file ending
    in [.json]. *)
Definition load_file (self : monitor) (filename : string)
    (file : read_result) : monitor :=
  match file with
  | Loaded (JDict token_data) =>
      {| price_transition_states :=
           <[filename := trading token_data]> (price_transition_states self);
         previous_states :=
           <[filename := remove_ignored token_data]> (previous_states self) |}
  | _ => self
  end.

(** The file was read and parsed, and the document is not an object. *)
Definition not_an_object (file : read_result) : bool :=
  match file with
  | Loaded (JDict _) => false
  | Loaded _ => true
  | ReadError => false
  end.

(** The [token_id] argument of a notifier call. *)
Definition token_id_in (c : call) : string :=
  match c with
  | send_new_token_alert token_id _ => token_id
  | send_trading_status_alert token_id _ => token_id
  | send_discord_alert token_id _ => token_id
  end.

End TokenDetails.
(** ** [hyperliquid_monitor.py]: class [HyperLiquidMonitor] *)

Module HyperLiquid.

(** An element of [market_data['tokens']], by the two fields the monitor
    reads: [asset.get('name')] and [asset.get('tokenId')].  Token ids are
    taken to be printable, as the file names made from them. *)
Record asset : Type := Asset {
  name : string;
  tokenId : option string;
}.

(** An asset of the reply together with what [fetch_token_details] returns
    if it is called for it in this cycle: [None] when the request raised. *)
Abbreviation polled_asset := (asset * option record)%type.

(** What [fetch_spot_markets] returns, as far as [check_for_updates] reads
    it: [None] stands for a reply that is not truthy ([None] after an
    exception, or an empty object), [Some tokens] for
    [market_data.get('tokens', [])]. *)
Abbreviation market_data := (option (list polled_asset)).

(** [if token_id]: neither missing nor the empty string. *)
Definition truthy_id (token_id : option string) : bool :=
  match token_id with
  | Some s => negb (String.eqb s "")
  | None => false
  end.

(** [if token_details]: neither [None] nor an empty dictionary. *)
Definition truthy_details (token_details : option record) : bool :=
  match token_details with
  | Some d => negb (Nat.eqb (size d) 0)
  | None => false
  end.

(** The calls a poll cycle makes, in the order they are made:
    [save_token_details], [notify_new_pair] and, inside it,
    [send_discord_alert], [save_cache], and the [send_system_alert] of the
    handler of [main].  The message of the system alert, built from the text
    of the exception, is left out. *)
Inductive effect : Type :=
  | save_token_details (token_id : string) (details : record)
  | notify_new_pair (pair : string) (token_details : record)
  | send_discord_alert (pair : string) (token_details : record)
  | save_cache (known_pairs : gset string)
  | send_system_alert.

(** The [print] calls of [notify_new_pair], lines 179 to 185: they succeed
    when the pair name and, for truthy details, the four values printed can
    be printed. *)
Definition notification_prints (pair : string) (token_details : record) : bool :=
  printable_text pair &&
  (if truthy_details (Some token_details) then
     printable (dict_get token_details "totalSupply") &&
     printable (dict_get token_details "circulatingSupply") &&
     printable (dict_get token_details "midPx") &&
     printable (dict_get token_details "deployTime")
   else true).

(** What the loop body does for one asset once [pair_name] is added to
    [current_pairs]: the calls, and whether it ran to its end.  When a
    [print] of [notify_new_pair] raises, nothing catches the exception
    inside [check_for_updates], and [send_discord_alert] is not reached. *)
Definition new_pair_effects (known_pairs : gset string) (a : polled_asset)
    : list effect * bool :=
  let pair_name := name a.1 in
  let token_id := tokenId a.1 in
  if bool_decide (pair_name ∉ known_pairs) && truthy_id token_id then
    match token_id, a.2 with
    | Some id, Some token_details =>
        if truthy_details (Some token_details) then
          if notification_prints pair_name token_details then
            ([save_token_details id token_details;
              notify_new_pair pair_name token_details;
              send_discord_alert pair_name token_details], true)
          else
            ([save_token_details id token_details;
              notify_new_pair pair_name token_details], false)
        else ([], true)
    | _, _ => ([], true)
    end
  else ([], true).

(** The [for asset in ...] loop of [check_for_updates]: [current_pairs] at
    its end, or [None] when an exception left it, and the calls made. *)
Fixpoint process_assets (known_pairs : gset string) (tokens : list polled_asset)
    (current_pairs : gset string) : option (gset string) * list effect :=
  match tokens with
  | [] => (Some current_pairs, [])
  | a :: rest =>
      let current_pairs := current_pairs ∪ {[ name a.1 ]} in
      let '(calls, returned) := new_pair_effects known_pairs a in
      if returned then
        let '(final_pairs, log) := process_assets known_pairs rest current_pairs in
        (final_pairs, calls ++ log)
      else (None, calls)
  end.

(** [check_for_updates]: the value of [self.known_pairs] when the call ends
    and the calls of the cycle, in order.  An exception leaves
    [self.known_pairs] as it was: line 106 is not reached. *)
Definition check_for_updates (known_pairs : gset string) (reply : market_data)
    : gset string * list effect :=
  match reply with
  | None => (known_pairs, [])
  | Some tokens =>
      match process_assets known_pairs tokens ∅ with
      | (Some current_pairs, log) =>
          (current_pairs, log ++ [save_cache current_pairs])
      | (None, log) => (known_pairs, log)
      end
  end.

(** Whether [check_for_updates] ends with an exception. *)
Definition raises (known_pairs : gset string) (reply : market_data) : bool :=
  match reply with
  | None => false
  | Some tokens =>
      match (process_assets known_pairs tokens ∅).1 with
      | Some _ => false
      | None => true
      end
  end.

(** The [while True] loop of [main]: one reply of the API per cycle.  The
    handler of line 241 answers an exception of [check_for_updates] with
    [send_system_alert], and the loop goes on. *)
Fixpoint run (known_pairs : gset string) (cycles : list market_data)
    : gset string * list effect :=
  match cycles with
  | [] => (known_pairs, [])
  | reply :: later =>
      let '(known1, log1) := check_for_updates known_pairs reply in
      let handler :=
        if raises known_pairs reply then [send_system_alert] else [] in
      let '(known2, log2) := run known1 later in
      (known2, log1 ++ handler ++ log2)
  end.

(** *** Notions used to state the properties *)

(** The new-pair alerts of a log for one pair name. *)
Definition is_alert_for (pair : string) (e : effect) : bool :=
  match e with
  | notify_new_pair p _ => String.eqb p pair
  | _ => false
  end.

Definition alerts_for (pair : string) (log : list effect) : nat :=
  length (filter (λ e, is_alert_for pair e = true) log).






(** *** The files the monitor writes *)

(** The content of the cache file: [None] when it does not exist, else the
    list of names that [save_cache] wrote with [json.dump]. *)
Abbreviation cache_file := (option (list string)).

(** [load_cache]: the set of the names in the file, or the empty set on
    [FileNotFoundError]. *)
Definition load_cache (cache : cache_file) : gset string :=
  match cache with
  | Some pairs => list_to_set pairs
  | None => ∅
  end.

(** The cache file once the effects of a log have taken place:
    [save_cache] overwrites it with [list(self.known_pairs)]. *)
Fixpoint cache_after (cache : cache_file) (log : list effect) : cache_file :=
  match log with
  | [] => cache
  | save_cache known_pairs :: rest => cache_after (Some (elements known_pairs)) rest
  | _ :: rest => cache_after cache rest
  end.

(** [f"{token_id}.json"], the name of the file that [save_token_details]
    writes in the token details directory. *)
Definition details_filename (token_id : string) : string :=
  (token_id ++ ".json")%string.

End HyperLiquid.

(** ** Records and directories of the scenarios *)

Module Scenario.
Import TokenDetails.

Definition xyz_not_trading : record :=
  {[ "name" := JStr "XYZ"; "midPx" := JNull ]}.

Definition xyz_trading (price : string) : record :=
  {[ "name" := JStr "XYZ"; "midPx" := JStr price ]}.

Definition price_only (price : string) : record :=
  {[ "midPx" := JStr price ]}.

Definition supply_deployed : record :=
  {[ "totalSupply" := JStr "1000";
     "deployTime" := JStr "2024-01-01T00:00:00Z" ]}.

Definition supply_only : record :=
  {[ "totalSupply" := JStr "1000" ]}.

(** [{"totalSupply": NaN}], as [json.load] reads it. *)
Definition supply_nan : record :=
  {[ "totalSupply" := JFloat NaN ]}.

(** A string that holds the lone surrogate U+D800, as [json.load] reads the
    escape [\ud800]. *)
Definition lone_surrogate : string :=
  String (ascii_of_nat 237) (String (ascii_of_nat 160) (String (ascii_of_nat 128) "")).

Definition xyz_marked (mark : string) : record :=
  {[ "name" := JStr "XYZ"; "midPx" := JNull; "markPx" := JStr mark ]}.

(** A directory holding the one file [XYZ.json] with the given content. *)
Definition xyz_dir (data : record) : directory :=
  [("XYZ.json", Loaded (JDict data))].

(** The pair [XYZ] in a reply of the API, and its token details. *)
Definition xyz_asset : HyperLiquid.asset :=
  {| HyperLiquid.name := "XYZ"; HyperLiquid.tokenId := Some "0x1" |}.

Definition abc_asset : HyperLiquid.asset :=
  {| HyperLiquid.name := "ABC"; HyperLiquid.tokenId := Some "0x2" |}.

Definition xyz_details : record :=
  {[ "name" := JStr "XYZ"; "totalSupply" := JStr "1000" ]}.


(** Details whose total supply cannot be printed. *)
Definition abc_unprintable : record :=
  {[ "name" := JStr "ABC"; "totalSupply" := JStr lone_surrogate ]}.

End Scenario.

(** ** One more string method *)

(** [sub in s] for a non-empty [sub]. *)
Fixpoint contains (sub s : string) : bool :=
  match s with
  | EmptyString => false
  | String _ s' => String.prefix sub s || contains sub s'
  end.

(** * Properties *)

(** ** String methods on examples *)

Example endswith_json : endswith "PURR.json" ".json" = true.
Proof. reflexivity. Qed.

Example endswith_short : endswith "json" ".json" = false.
Proof. reflexivity. Qed.

Example replace_json : replace ".json" "" "PURR.json" = "PURR".
Proof. reflexivity. Qed.

Example replace_json_twice : replace ".json" "" "a.json.json" = "a".
Proof. reflexivity. Qed.

(** ** Python equality is reflexive on these values *)

Lemma json_size_list_elem (l : list json) (x : json) :
  x ∈ l → json_size x < json_size (JList l).
Proof.
  simpl. induction 1 as [x l|x y l _ IH]; simpl; lia.
Qed.

Lemma json_size_dict_elem (d : gmap string json) (k : string) (x : json) :
  d !! k = Some x → json_size x < json_size (JDict d).
Proof.
  simpl. revert k x.
  induction d as [|i y d Hi Hfirst IH] using map_first_key_ind; intros k x Hk.
  - by rewrite lookup_empty in Hk.
  - rewrite map_fold_insert_first_key by done.
    destruct (decide (i = k)) as [->|Hne].
    + rewrite lookup_insert_eq in Hk. injection Hk as ->. lia.
    + rewrite lookup_insert_ne in Hk by done. specialize (IH _ _ Hk). lia.
Qed.

(** Structural induction that reaches inside lists and dictionaries. *)
Lemma json_ind (P : json → Prop) :
  P JNull →
  (∀ b, P (JBool b)) →
  (∀ n, P (JInt n)) →
  (∀ q, P (JFloat q)) →
  (∀ s, P (JStr s)) →
  (∀ l, Forall P l → P (JList l)) →
  (∀ d, map_Forall (λ _, P) d → P (JDict d)) →
  ∀ v, P v.
Proof.
  intros HNull HBool HInt HFloat HStr HList HDict v.
  remember (json_size v) as n eqn:Hn.
  revert v Hn. induction n as [n IH] using lt_wf_ind. intros v ->.
  destruct v as [|b|z|q|s|l|d]; auto.
  - apply HList, Forall_forall. intros x Hx.
    apply (IH (json_size x)); [by apply json_size_list_elem|done].
  - apply HDict. intros k x Hk.
    apply (IH (json_size x)); [by eapply json_size_dict_elem|done].
Qed.

Lemma py_eq_list_refl (l : list json) :
  Forall (λ x, is_NaN x && is_NaN x || py_eq x x = true) l →
  py_eq (JList l) (JList l) = true.
Proof.
  simpl. induction 1 as [|x l Hx _ IH]; [done|].
  by rewrite Hx, IH.
Qed.

Lemma py_eq_dict_refl (d : gmap string json) :
  map_Forall (λ _ x, is_NaN x && is_NaN x || py_eq x x = true) d →
  py_eq (JDict d) (JDict d) = true.
Proof.
  intros Hd. simpl. rewrite Nat.eqb_refl. simpl.
  apply (map_fold_weak_ind
           (λ (acc : bool) (m : gmap string json), m ⊆ d → acc = true)); [done| |done].
  intros k x m acc Hk IH Hsub.
  assert (d !! k = Some x) as Hdk.
  { eapply lookup_weaken; [apply lookup_insert_eq|done]. }
  rewrite IH, Hdk; simpl.
  - by apply (Hd k x).
  - etrans; [apply insert_subseteq; done|done].
Qed.

(** A value is equal to itself, or it is [NaN]. *)
Lemma py_eq_refl_or_NaN (v : json) : is_NaN v && is_NaN v || py_eq v v = true.
Proof.
  induction v as [|b|n|x|s|l IH|d IH] using json_ind.
  - done.
  - destruct b; done.
  - simpl. apply Qeq_bool_iff. reflexivity.
  - destruct x as [q|negative|]; simpl; [|by destruct negative|done].
    apply Qeq_bool_iff. reflexivity.
  - simpl. apply String.eqb_refl.
  - by rewrite py_eq_list_refl.
  - by rewrite py_eq_dict_refl.
Qed.

Lemma py_eq_refl (v : json) : is_NaN v = false → py_eq v v = true.
Proof. intros Hv. pose proof (py_eq_refl_or_NaN v) as H. by rewrite Hv in H. Qed.

Lemma py_ne_refl (v : json) : is_NaN v = false → py_ne v v = false.
Proof. intros Hv. unfold py_ne. by rewrite py_eq_refl. Qed.

Lemma py_ne_NaN : py_ne (JFloat NaN) (JFloat NaN) = true.
Proof. done. Qed.

(** A list that holds [NaN] is equal to itself. *)
Example list_of_NaN_equal : py_eq (JList [JFloat NaN]) (JList [JFloat NaN]) = true.
Proof. done. Qed.

(** ** A name with the suffix [.json] *)

Lemma substring_whole (t : string) : substring 0 (String.length t) t = t.
Proof. induction t as [|c t IH]; simpl; [done|by rewrite IH]. Qed.

Lemma substring_suffix (s t : string) :
  substring (String.length s) (String.length t) (s ++ t)%string = t.
Proof. induction s as [|c s IH]; simpl; [apply substring_whole|done]. Qed.

Lemma length_app_string (s t : string) :
  String.length (s ++ t)%string = String.length s + String.length t.
Proof. induction s as [|c s IH]; simpl; [done|by rewrite IH]. Qed.

Lemma endswith_app (s t : string) : endswith (s ++ t)%string t = true.
Proof.
  unfold endswith. rewrite length_app_string.
  replace (String.length s + String.length t - String.length t)
    with (String.length s) by lia.
  rewrite substring_suffix, String.eqb_refl, andb_true_r.
  apply Nat.leb_le. lia.
Qed.

Lemma prefix_cons a (p : string) b (s : string) :
  String.prefix (String a p) (String b s) =
  if ascii_dec a b then String.prefix p s else false.
Proof. done. Qed.

Lemma prefix_app_iff (p s : string) :
  String.prefix p s = true ↔ ∃ r, s = (p ++ r)%string.
Proof.
  revert s. induction p as [|a p IH]; intros s.
  - split; [by exists s|]. by destruct s.
  - destruct s as [|b s].
    + split; [done|]. by intros [r ?].
    + rewrite prefix_cons. destruct (ascii_dec a b) as [->|Hne].
      * rewrite IH. split; intros [r Hr]; exists r.
        -- simpl. by rewrite Hr.
        -- simpl in Hr. by injection Hr.
      * split; [done|]. intros [r Hr]. simpl in Hr. by injection Hr.
Qed.

(** No occurrence of [.json] starts inside [s] and ends inside the suffix. *)
Lemma prefix_json_app (s : string) :
  String.prefix ".json" (s ++ ".json")%string = true →
  s = "" ∨ String.prefix ".json" s = true.
Proof.
  rewrite !prefix_app_iff. intros [r Hr].
  destruct s as [|c1 [|c2 [|c3 [|c4 [|c5 s]]]]]; cbv [String.append] in Hr;
    [by left|congruence..|].
  right. exists s. cbv [String.append]. congruence.
Qed.

Lemma replace_json_suffix (s : string) :
  contains ".json" s = false →
  replace ".json" "" (s ++ ".json")%string = s.
Proof.
  unfold replace. induction s as [|c s IH]; [done|].
  intros Hnone. change (contains ".json" (String c s))
    with (String.prefix ".json" (String c s) || contains ".json" s) in Hnone.
  apply orb_false_iff in Hnone as [Hhere Hlater].
  change (String c s ++ ".json")%string with (String c (s ++ ".json")%string).
  change (replace_from 0 ".json" "" (String c (s ++ ".json")%string))
    with (if String.prefix ".json" (String c (s ++ ".json")%string)
          then ("" ++ replace_from (String.length ".json" - 1) ".json" ""
                        (s ++ ".json")%string)%string
          else String c (replace_from 0 ".json" "" (s ++ ".json")%string)).
  destruct (String.prefix ".json" (String c (s ++ ".json")%string)) eqn:Hprefix.
  - destruct (prefix_json_app (String c s) Hprefix) as [?|Hin]; [done|].
    by rewrite Hin in Hhere.
  - by rewrite IH.
Qed.

(** ** The token details monitor *)

Module TokenDetailsFacts.
Import TokenDetails.

(** *** What the two comparison loops compute, field by field *)

Lemma changed_or_new_lookup was_trading (previous_data cleaned_current : record) key :
  changed_or_new was_trading previous_data cleaned_current !! key =
  match cleaned_current !! key with
  | Some value => field_change was_trading key (previous_data !! key) (Some value)
  | None => None
  end.
Proof.
  unfold changed_or_new. revert key.
  apply (map_fold_weak_ind
    (λ (changes : change_set) (m : record), ∀ key,
       changes !! key =
       match m !! key with
       | Some value => field_change was_trading key (previous_data !! key) (Some value)
       | None => None
       end)).
  - intros key. by rewrite !lookup_empty.
  - intros i x m changes Hi IH key.
    destruct (decide (i = key)) as [->|Hne].
    + rewrite lookup_insert_eq. simpl.
      destruct (bool_decide (key = "midPx") && was_trading).
      { by rewrite IH, Hi. }
      destruct (previous_data !! key) as [o|].
      * destruct (py_ne o x); [by rewrite lookup_insert_eq|by rewrite IH, Hi].
      * by rewrite lookup_insert_eq.
    + rewrite (lookup_insert_ne m) by done. rewrite <- IH.
      destruct (bool_decide (i = "midPx") && was_trading); [done|].
      destruct (previous_data !! i) as [o|].
      * destruct (py_ne o x); [by rewrite lookup_insert_ne|done].
      * by rewrite lookup_insert_ne.
Qed.

Lemma removed_lookup (previous_data cleaned_current : record)
    (changes : change_set) key :
  removed previous_data cleaned_current changes !! key =
  match previous_data !! key, cleaned_current !! key with
  | Some o, None => Some (o, JNull)
  | _, _ => changes !! key
  end.
Proof.
  unfold removed. revert key.
  apply (map_fold_weak_ind
    (λ (acc : change_set) (m : record), ∀ key,
       acc !! key =
       match m !! key, cleaned_current !! key with
       | Some o, None => Some (o, JNull)
       | _, _ => changes !! key
       end)).
  - intros key. by rewrite lookup_empty.
  - intros i x m acc Hi IH key.
    destruct (decide (i = key)) as [->|Hne].
    + rewrite lookup_insert_eq.
      destruct (cleaned_current !! key) eqn:Hc.
      * by rewrite IH, Hi.
      * by rewrite lookup_insert_eq.
    + rewrite (lookup_insert_ne m) by done. rewrite <- IH.
      destruct (cleaned_current !! i); [done|by rewrite lookup_insert_ne].
Qed.

Lemma detect_changes_lookup was_trading (previous_data cleaned_current : record) key :
  detect_changes was_trading previous_data cleaned_current !! key =
  field_change was_trading key (previous_data !! key) (cleaned_current !! key).
Proof.
  unfold detect_changes.
  rewrite removed_lookup, changed_or_new_lookup.
  destruct (previous_data !! key), (cleaned_current !! key); done.
Qed.

Lemma remove_ignored_lookup (data : record) key :
  remove_ignored data !! key =
  if decide (key ∈ ignored_fields) then None else data !! key.
Proof.
  unfold remove_ignored.
  destruct (data !! key) as [v|] eqn:Hk.
  - case_decide.
    + apply map_lookup_filter_None. right. intros v' Hv'. simpl. tauto.
    + by apply map_lookup_filter_Some.
  - case_decide; apply map_lookup_filter_None; by left.
Qed.

Lemma remove_ignored_midPx (data : record) :
  remove_ignored data !! "midPx" = data !! "midPx".
Proof. rewrite remove_ignored_lookup. by case_decide. Qed.

Lemma trading_remove_ignored (data : record) :
  trading (remove_ignored data) = trading data.
Proof. unfold trading, dict_get. by rewrite remove_ignored_midPx. Qed.

Lemma detect_changes_same was_trading (R : record) :
  NaN_free R → detect_changes was_trading R R = ∅.
Proof.
  intros HR. apply map_eq. intros key.
  rewrite detect_changes_lookup, lookup_empty. unfold field_change.
  destruct (R !! key) as [v|] eqn:Hv; [|done].
  rewrite py_ne_refl by apply (HR key v Hv).
  by destruct (bool_decide (key = "midPx") && was_trading).
Qed.

(** The entries of the change set, read off the two records. *)
Lemma detect_changes_entry was_trading (previous_data cleaned_current : record) :
  lists_the_differences was_trading previous_data cleaned_current
    (detect_changes was_trading previous_data cleaned_current).
Proof.
  intros key.
  rewrite detect_changes_lookup. unfold field_change, same_field, py_ne.
  destruct (cleaned_current !! key) as [value|], (previous_data !! key) as [o|];
    simpl.
  - destruct (bool_decide (key = "midPx")) eqn:Hk, was_trading, (py_eq o value);
      simpl; try apply bool_decide_eq_true in Hk;
      try apply bool_decide_eq_false in Hk; split;
      try (split; [intros; try done; by (left + (right; eauto))
                  |intros [?|(? & ? & ?)]; done]);
      intros old new [=]; by subst.
  - destruct (bool_decide (key = "midPx")) eqn:Hk, was_trading;
      simpl; try apply bool_decide_eq_true in Hk;
      try apply bool_decide_eq_false in Hk; split;
      try (split; [intros; try done; by (right; eauto)
                  |intros [?|(? & ? & ?)]; done]);
      intros old new [=]; by subst.
  - split.
    + split; [done|]. intros [?|(_ & _ & [? ?])]; done.
    + intros old new [=]. by subst.
  - split; [|done]. split; [by left|done].
Qed.

(** *** What can be printed *)

Lemma printable_changes_spec (changes : change_set) :
  printable_changes changes = true ↔
  map_Forall (λ field entry,
                printable_text field = true ∧ printable entry.1 = true ∧
                printable entry.2 = true) changes.
Proof.
  unfold printable_changes.
  apply (map_fold_weak_ind
    (λ (ok : bool) (m : change_set),
       ok = true ↔
       map_Forall (λ field entry,
                     printable_text field = true ∧ printable entry.1 = true ∧
                     printable entry.2 = true) m)).
  - split; [intros _; apply map_Forall_empty|done].
  - intros field entry m ok Hfresh IH.
    rewrite map_Forall_insert by done. rewrite <- IH.
    rewrite !andb_true_iff. tauto.
Qed.

Lemma printable_changes_empty : printable_changes ∅ = true.
Proof. done. Qed.

Lemma printable_record_lookup (data : record) key value :
  printable_record data → data !! key = Some value →
  printable_text key = true ∧ printable value = true.
Proof. intros Hdata Hkey. apply (Hdata key value Hkey). Qed.

Lemma printable_remove_ignored (data : record) :
  printable_record data → printable_record (remove_ignored data).
Proof.
  intros Hdata key value. rewrite remove_ignored_lookup.
  case_decide; [done|]. apply Hdata.
Qed.


Lemma printable_midPx (data : record) :
  printable_record (remove_ignored data) →
  printable (dict_get data "midPx") = true.
Proof.
  intros Hdata. unfold dict_get.
  destruct (data !! "midPx") as [value|] eqn:Hvalue; [|done].
  rewrite <- remove_ignored_midPx in Hvalue.
  by destruct (Hdata "midPx" value Hvalue).
Qed.

(** The changes between two printable records can be printed. *)
Lemma printable_detect_changes was_trading (previous_data cleaned_current : record) :
  printable_record previous_data → printable_record cleaned_current →
  printable_changes (detect_changes was_trading previous_data cleaned_current) = true.
Proof.
  intros Hold Hnew. apply printable_changes_spec. intros key [old new].
  rewrite detect_changes_lookup. unfold field_change. simpl.
  destruct (cleaned_current !! key) as [value|] eqn:Hc,
           (previous_data !! key) as [o|] eqn:Hp.
  - destruct (Hold key o Hp) as [? ?], (Hnew key value Hc) as [? ?].
    destruct (_ && _); [done|]. destruct (py_ne o value); [|done].
    by intros [= <- <-].
  - destruct (Hnew key value Hc) as [? ?].
    destruct (_ && _); [done|]. by intros [= <- <-].
  - destruct (Hold key o Hp) as [? ?]. by intros [= <- <-].
  - done.
Qed.


(** *** Files are processed independently of each other *)

(** The three ways the processing of an object can end. *)
Lemma process_file_object self f (current : record) :
  process_file self f (Loaded (JDict current)) =
  let new_file :=
    match previous_states self !! f with
    | None => [send_new_token_alert (token_id_of f) (JDict current)]
    | Some _ => []
    end in
  let was_trading := default false (price_transition_states self !! f) in
  let tradeable :=
    if negb was_trading && trading current
    then [send_trading_status_alert (token_id_of f) (dict_get current "midPx")]
    else [] in
  let changes :=
    detect_changes was_trading (default ∅ (previous_states self !! f))
      (remove_ignored current) in
  if negb was_trading && trading current && negb (printable (dict_get current "midPx"))
  then (self, new_file)
  else if printable_changes changes then
    ({| price_transition_states :=
          <[f := trading current]> (price_transition_states self);
        previous_states :=
          <[f := remove_ignored current]> (previous_states self) |},
     new_file ++ tradeable ++
     (if size changes =? 0 then [] else [send_discord_alert (token_id_of f) changes]))
  else
    ({| price_transition_states :=
          <[f := trading current]> (price_transition_states self);
        previous_states := previous_states self |},
     new_file ++ tradeable).
Proof. done. Qed.

(** A document that is not an object is announced if new, and nothing else
    happens. *)
Lemma process_file_document self f document :
  not_an_object (Loaded document) = true →
  process_file self f (Loaded document) =
  (self,
   match previous_states self !! f with
   | None => [send_new_token_alert (token_id_of f) document]
   | Some _ => []
   end).
Proof. by destruct document. Qed.

(** When the stored and the current record can be printed, no [print]
    raises and the file is processed to the end. *)
Lemma process_file_printed self f (current : record) :
  printable_record (default ∅ (previous_states self !! f)) →
  printable_record (remove_ignored current) →
  process_file self f (Loaded (JDict current)) =
  let was_trading := default false (price_transition_states self !! f) in
  let changes :=
    detect_changes was_trading (default ∅ (previous_states self !! f))
      (remove_ignored current) in
  ({| price_transition_states :=
        <[f := trading current]> (price_transition_states self);
      previous_states :=
        <[f := remove_ignored current]> (previous_states self) |},
   match previous_states self !! f with
   | None => [send_new_token_alert (token_id_of f) (JDict current)]
   | Some _ => []
   end ++
   (if negb was_trading && trading current
    then [send_trading_status_alert (token_id_of f) (dict_get current "midPx")]
    else []) ++
   (if Nat.eqb (size changes) 0 then []
    else [send_discord_alert (token_id_of f) changes])).
Proof.
  intros Hstored Hcurrent.
  rewrite process_file_object. cbv zeta.
  rewrite (printable_midPx current Hcurrent). cbn [negb]. rewrite andb_false_r.
  by rewrite printable_detect_changes.
Qed.

(** Every call made for an object is one of the three of the source, under
    the condition the source tests. *)
Lemma process_file_object_calls self f (current : record) c :
  c ∈ (process_file self f (Loaded (JDict current))).2 →
  (c = send_new_token_alert (token_id_of f) (JDict current) ∧
   previous_states self !! f = None) ∨
  (c = send_trading_status_alert (token_id_of f) (dict_get current "midPx") ∧
   default false (price_transition_states self !! f) = false ∧
   trading current = true) ∨
  (c = send_discord_alert (token_id_of f)
         (detect_changes (default false (price_transition_states self !! f))
            (default ∅ (previous_states self !! f)) (remove_ignored current)) ∧
   detect_changes (default false (price_transition_states self !! f))
     (default ∅ (previous_states self !! f)) (remove_ignored current) ≠ ∅).
Proof.
  rewrite process_file_object. cbv zeta.
  assert (c ∈ match previous_states self !! f with
              | None => [send_new_token_alert (token_id_of f) (JDict current)]
              | Some _ => []
              end →
          c = send_new_token_alert (token_id_of f) (JDict current) ∧
          previous_states self !! f = None) as Hnew.
  { destruct (previous_states self !! f); [by intros ?%elem_of_nil|].
    by intros ->%list_elem_of_singleton. }
  assert (c ∈ (if negb (default false (price_transition_states self !! f)) &&
                  trading current
               then [send_trading_status_alert (token_id_of f)
                       (dict_get current "midPx")]
               else []) →
          c = send_trading_status_alert (token_id_of f) (dict_get current "midPx") ∧
          default false (price_transition_states self !! f) = false ∧
          trading current = true) as Hstatus.
  { destruct (negb _ && _) eqn:Hrising; [|by intros ?%elem_of_nil].
    apply andb_true_iff in Hrising as [?%negb_true_iff ?].
    by intros ->%list_elem_of_singleton. }
  destruct (_ && _ && negb _); [|destruct (printable_changes _)];
    cbn [snd]; rewrite ?elem_of_app.
  - intros ?%Hnew. by left.
  - intros [?%Hnew|[?%Hstatus|Hin]]; [by left|right; by left|].
    destruct (size _ =? 0) eqn:Hsize; [by apply elem_of_nil in Hin|].
    apply list_elem_of_singleton in Hin. right. right. split; [done|].
    intros Hempty. by rewrite Hempty, map_size_empty in Hsize.
  - intros [?%Hnew|?%Hstatus]; [by left|right; by left].
Qed.

Lemma process_file_other self filename file (other : string) :
  other ≠ filename →
  price_transition_states (process_file self filename file).1 !! other =
    price_transition_states self !! other ∧
  previous_states (process_file self filename file).1 !! other =
    previous_states self !! other.
Proof.
  intros Hne. destruct file as [|[| | | | | |current]]; simpl; try done.
  destruct (_ && _ && negb _); [done|].
  destruct (printable_changes _); simpl; by rewrite ?lookup_insert_ne.
Qed.

Lemma process_file_local self self' filename file :
  price_transition_states self !! filename =
    price_transition_states self' !! filename →
  previous_states self !! filename = previous_states self' !! filename →
  (process_file self filename file).2 = (process_file self' filename file).2 ∧
  price_transition_states (process_file self filename file).1 !! filename =
    price_transition_states (process_file self' filename file).1 !! filename ∧
  previous_states (process_file self filename file).1 !! filename =
    previous_states (process_file self' filename file).1 !! filename.
Proof.
  intros Hflag Hprev.
  destruct file as [|[| | | | | |current]]; simpl; rewrite ?Hflag, ?Hprev; try done.
  destruct (_ && _ && negb _); [done|].
  destruct (printable_changes _); simpl; by rewrite ?lookup_insert_eq.
Qed.

Lemma calls_for_app filename (log1 log2 : list (string * call)) :
  calls_for filename (log1 ++ log2) =
  calls_for filename log1 ++ calls_for filename log2.
Proof. unfold calls_for. by rewrite filter_app, fmap_app. Qed.

Lemma calls_for_tagged_eq filename (calls : list call) :
  calls_for filename (map (pair filename) calls) = calls.
Proof.
  unfold calls_for. induction calls as [|c calls IH]; [done|].
  simpl. rewrite filter_cons_True by done. simpl. by f_equal.
Qed.

Lemma calls_for_tagged_ne filename other (calls : list call) :
  other ≠ filename → calls_for filename (map (pair other) calls) = [].
Proof.
  intros Hne. unfold calls_for. induction calls as [|c calls IH]; [done|].
  simpl. by rewrite filter_cons_False.
Qed.

Lemma check_for_changes_absent self (dir : directory) filename :
  filename ∉ dir.*1 →
  price_transition_states (check_for_changes self dir).1 !! filename =
    price_transition_states self !! filename ∧
  previous_states (check_for_changes self dir).1 !! filename =
    previous_states self !! filename ∧
  calls_for filename (check_for_changes self dir).2 = [].
Proof.
  revert self. induction dir as [|[name file] rest IH]; intros self Hnot; [done|].
  rewrite fmap_cons, not_elem_of_cons in Hnot. destruct Hnot as [Hne Hnot].
  simpl in Hne. simpl.
  destruct (endswith name ".json"); [|by apply IH].
  destruct (process_file self name file) as [self1 calls] eqn:Hp.
  specialize (IH self1 Hnot).
  destruct (check_for_changes self1 rest) as [self2 log]. simpl in *.
  destruct IH as (-> & -> & Hlog).
  pose proof (process_file_other self name file filename Hne) as [Hf Hs].
  rewrite Hp in Hf, Hs. simpl in Hf, Hs.
  rewrite calls_for_app, Hlog, calls_for_tagged_ne by done.
  done.
Qed.

Lemma check_for_changes_present self (dir : directory) filename file :
  NoDup dir.*1 →
  (filename, file) ∈ dir →
  endswith filename ".json" = true →
  price_transition_states (check_for_changes self dir).1 !! filename =
    price_transition_states (process_file self filename file).1 !! filename ∧
  previous_states (check_for_changes self dir).1 !! filename =
    previous_states (process_file self filename file).1 !! filename ∧
  calls_for filename (check_for_changes self dir).2 =
    (process_file self filename file).2.
Proof.
  revert self. induction dir as [|[name file'] rest IH]; intros self Hnd Hin Hjson.
  { by apply elem_of_nil in Hin. }
  rewrite fmap_cons in Hnd. apply NoDup_cons in Hnd as [Hfresh Hnd].
  simpl in Hfresh. apply elem_of_cons in Hin as [Heq|Hin].
  - injection Heq as <- <-. simpl. rewrite Hjson.
    destruct (process_file self filename file) as [self1 calls] eqn:Hp.
    pose proof (check_for_changes_absent self1 rest filename Hfresh) as (Hf & Hs & Hlog).
    destruct (check_for_changes self1 rest) as [self2 log]. simpl in *.
    split_and!; [done..|].
    by rewrite calls_for_app, Hlog, calls_for_tagged_eq, app_nil_r.
  - assert (name ≠ filename) as Hne.
    { intros ->. apply Hfresh. apply list_elem_of_fmap. by exists (filename, file). }
    simpl. destruct (endswith name ".json"); [|by apply IH].
    destruct (process_file self name file') as [self1 calls] eqn:Hp.
    specialize (IH self1 Hnd Hin Hjson).
    destruct (check_for_changes self1 rest) as [self2 log]. simpl in *.
    destruct IH as (-> & -> & Hlog).
    pose proof (process_file_other self name file' filename (not_eq_sym Hne)) as [Hf Hs].
    rewrite Hp in Hf, Hs. simpl in Hf, Hs.
    pose proof (process_file_local self1 self filename file Hf Hs) as (<- & -> & ->).
    split_and!; [done..|].
    by rewrite calls_for_app, calls_for_tagged_ne.
Qed.

(** *** Invariants of the two tables *)

Lemma consistent_store self filename (status : bool) (data : record) :
  consistent self →
  consistent
    {| price_transition_states :=
         <[filename := status]> (price_transition_states self);
       previous_states :=
         <[filename := remove_ignored data]> (previous_states self) |}.
Proof.
  intros [Hstatus Hclean]. split.
  - intros name. simpl. destruct (decide (filename = name)) as [->|Hne].
    + by rewrite !lookup_insert_eq.
    + rewrite !lookup_insert_ne by done. apply Hstatus.
  - intros name stored key. simpl. destruct (decide (filename = name)) as [->|Hne].
    + rewrite lookup_insert_eq. intros [= <-] Hkey.
      rewrite remove_ignored_lookup. by case_decide.
    + rewrite lookup_insert_ne by done. apply Hclean.
Qed.

Lemma consistent_status self filename (status : bool) :
  consistent self →
  consistent
    {| price_transition_states :=
         <[filename := status]> (price_transition_states self);
       previous_states := previous_states self |}.
Proof.
  intros [Hstatus Hclean]. split; [|done].
  intros name Hstored. simpl in *. destruct (decide (filename = name)) as [->|Hne].
  - by rewrite lookup_insert_eq.
  - rewrite lookup_insert_ne by done. by apply Hstatus.
Qed.

Lemma consistent_process_file self filename file :
  consistent self → consistent (process_file self filename file).1.
Proof.
  intros Hc. destruct file as [|[| | | | | |current]]; simpl; try done.
  destruct (_ && _ && negb _); [done|].
  destruct (printable_changes _); simpl.
  - by apply consistent_store.
  - by apply consistent_status.
Qed.

Lemma consistent_check_for_changes self (dir : directory) :
  consistent self → consistent (check_for_changes self dir).1.
Proof.
  revert self. induction dir as [|[name file] rest IH]; intros self Hc; [done|].
  simpl. destruct (endswith name ".json"); [|by apply IH].
  pose proof (consistent_process_file self name file Hc) as Hc1.
  destruct (process_file self name file) as [self1 calls].
  specialize (IH self1 Hc1).
  by destruct (check_for_changes self1 rest).
Qed.

Lemma consistent_load_initial_states self (dir : directory) :
  consistent self → consistent (load_initial_states self dir).
Proof.
  revert self. induction dir as [|[name file] rest IH]; intros self Hc; [done|].
  simpl. apply IH.
  destruct (endswith name ".json"); [|done].
  destruct file as [|[| | | | | |token_data]]; try done.
  by apply consistent_store.
Qed.

Lemma consistent_reachable self : reachable self → consistent self.
Proof.
  induction 1 as [dir|self dir _ IH].
  - apply consistent_load_initial_states. split.
    + intros name. simpl. rewrite !lookup_empty. by intros [? ?].
    + intros name stored key. simpl. by rewrite lookup_empty.
  - by apply consistent_check_for_changes.
Qed.

Lemma reachable_run self (cycles : list directory) :
  reachable self → reachable (run self cycles).1.
Proof.
  revert self. induction cycles as [|dir later IH]; intros self Hr; [done|].
  simpl. pose proof (reachable_cycle self dir Hr) as Hr1.
  destruct (check_for_changes self dir) as [self1 log1].
  specialize (IH self1 Hr1).
  by destruct (run self1 later).
Qed.

(** *** The trading status follows the price: it is not a latch *)

(** [Hin] says that a call is in a list of at most one call of another kind. *)
Ltac no_such_call Hin :=
  first [ by apply elem_of_nil in Hin
        | by apply list_elem_of_singleton in Hin ].

Lemma not_new_file_alert self f document id price :
  send_trading_status_alert id price ∉
    match previous_states self !! f with
    | Some _ => []
    | None => [send_new_token_alert (token_id_of f) document]
    end.
Proof. intros Hin. destruct (previous_states self !! f); no_such_call Hin. Qed.

Lemma not_change_alert (changes : change_set) token_id id price :
  send_trading_status_alert id price ∉
    (if size changes =? 0 then [] else [send_discord_alert token_id changes]).
Proof. intros Hin. destruct (size changes =? 0); no_such_call Hin. Qed.


Lemma process_file_stays_trading self filename file f :
  price_transition_states self !! f = Some true →
  (filename = f → ∀ data, file = Loaded (JDict data) → trading data = true) →
  price_transition_states (process_file self filename file).1 !! f = Some true ∧
  (filename = f →
   ∀ id price, send_trading_status_alert id price ∉ (process_file self filename file).2).
Proof.
  intros Hflag Hpriced.
  destruct (decide (filename = f)) as [->|Hne].
  - specialize (Hpriced eq_refl).
    destruct file as [|[| | | | | |current]];
      try (split; [done|]; intros _ id price; apply not_new_file_alert).
    { split; [done|]. intros _ id price. apply not_elem_of_nil. }
    rewrite process_file_object. cbv zeta.
    rewrite (Hpriced current eq_refl), Hflag.
    cbn [default from_option id andb negb].
    destruct (printable_changes _);
      cbn [fst snd price_transition_states previous_states];
      (split; [by rewrite lookup_insert_eq|]); intros _ id price;
      rewrite !elem_of_app.
    + intros [Hin|[Hin|Hin]]; [by apply not_new_file_alert in Hin
                              |by apply elem_of_nil in Hin
                              |by apply not_change_alert in Hin].
    + intros [Hin|Hin]; [by apply not_new_file_alert in Hin
                        |by apply elem_of_nil in Hin].
  - split; [|done].
    destruct (process_file_other self filename file f) as [-> _]; done.
Qed.

Lemma check_for_changes_stays_trading self (dir : directory) f :
  price_transition_states self !! f = Some true →
  (∀ data, (f, Loaded (JDict data)) ∈ dir → trading data = true) →
  price_transition_states (check_for_changes self dir).1 !! f = Some true ∧
  ∀ id price,
    send_trading_status_alert id price ∉ calls_for f (check_for_changes self dir).2.
Proof.
  revert self. induction dir as [|[name file] rest IH]; intros self Hflag Hpriced.
  { split; [done|]. intros id price. apply not_elem_of_nil. }
  simpl. destruct (endswith name ".json").
  - destruct (process_file_stays_trading self name file f Hflag) as [Hflag1 Hcalls].
    { intros -> data ->. apply Hpriced. left. }
    destruct (process_file self name file) as [self1 calls]. simpl in *.
    destruct (IH self1 Hflag1) as [Hflag2 Hlog].
    { intros data Hin. apply Hpriced. by right. }
    destruct (check_for_changes self1 rest) as [self2 log]. simpl in *.
    split; [done|]. intros id price.
    rewrite calls_for_app, elem_of_app. intros [Hin|Hin]; [|by eapply Hlog].
    destruct (decide (name = f)) as [->|Hne].
    + rewrite calls_for_tagged_eq in Hin. by eapply Hcalls.
    + rewrite calls_for_tagged_ne in Hin by done. by apply elem_of_nil in Hin.
  - apply IH; [done|]. intros data Hin. apply Hpriced. by right.
Qed.

(** C1, as amended.  Once the stored status of a file is true, no later cycle
    calls [send_trading_status_alert] for it, and the status stays true, as
    long as [midPx] is not [None] in every cycle that reads the file as an
    object. *)
Theorem C1_no_further_alert_while_priced self (cycles : list directory) f :
  price_transition_states self !! f = Some true →
  (∀ dir data,
     dir ∈ cycles → (f, Loaded (JDict data)) ∈ dir → trading data = true) →
  price_transition_states (run self cycles).1 !! f = Some true ∧
  ∀ id price, send_trading_status_alert id price ∉ calls_for f (run self cycles).2.
Proof.
  revert self. induction cycles as [|dir later IH]; intros self Hflag Hpriced.
  { split; [done|]. intros id price. apply not_elem_of_nil. }
  simpl.
  destruct (check_for_changes_stays_trading self dir f Hflag) as [Hflag1 Hlog1].
  { intros data Hin. apply (Hpriced dir); [left|done]. }
  destruct (check_for_changes self dir) as [self1 log1]. simpl in *.
  destruct (IH self1 Hflag1) as [Hflag2 Hlog2].
  { intros dir' data Hdir. apply Hpriced. by right. }
  destruct (run self1 later) as [self2 log2]. simpl in *.
  split; [done|]. intros id price.
  rewrite calls_for_app, elem_of_app. intros [Hin|Hin]; [by eapply Hlog1|by eapply Hlog2].
Qed.

Lemma C1_witness_priced (dir : directory) (data : record) :
  dir ∈ [Scenario.xyz_dir (Scenario.xyz_trading "13.00")] →
  ("XYZ.json", Loaded (JDict data)) ∈ dir →
  trading data = true.
Proof.
  intros ->%list_elem_of_singleton Hin.
  apply list_elem_of_singleton in Hin. by injection Hin as ->.
Qed.

Lemma C1_no_further_alert_while_priced_witness :
  price_transition_states
    (run (init (Scenario.xyz_dir (Scenario.xyz_trading "12.50")))
         [Scenario.xyz_dir (Scenario.xyz_trading "13.00")]).1 !! "XYZ.json" = Some true ∧
  ∀ id price,
    send_trading_status_alert id price ∉
    calls_for "XYZ.json"
      (run (init (Scenario.xyz_dir (Scenario.xyz_trading "12.50")))
           [Scenario.xyz_dir (Scenario.xyz_trading "13.00")]).2.
Proof.
  apply (C1_no_further_alert_while_priced
           (init (Scenario.xyz_dir (Scenario.xyz_trading "12.50")))
           [Scenario.xyz_dir (Scenario.xyz_trading "13.00")] "XYZ.json").
  - reflexivity.
  - exact C1_witness_priced.
Defined.

(** C1, counterexample.  [midPx] goes "12.50", null, "13.00": the first cycle
    alerts and stores true, the second stores false again, and the third
    alerts a second time. *)
Lemma C1_status_reverts_and_alerts_again :
  let self0 := init (Scenario.xyz_dir Scenario.xyz_not_trading) in
  let cycle1 := check_for_changes self0 (Scenario.xyz_dir (Scenario.xyz_trading "12.50")) in
  let cycle2 := check_for_changes cycle1.1 (Scenario.xyz_dir Scenario.xyz_not_trading) in
  let cycle3 := check_for_changes cycle2.1 (Scenario.xyz_dir (Scenario.xyz_trading "13.00")) in
  price_transition_states self0 !! "XYZ.json" = Some false ∧
  cycle1.2 =
    [("XYZ.json", send_trading_status_alert "XYZ" (JStr "12.50"));
     ("XYZ.json", send_discord_alert "XYZ" {[ "midPx" := (JNull, JStr "12.50") ]})] ∧
  price_transition_states cycle1.1 !! "XYZ.json" = Some true ∧
  cycle2.2 = [] ∧
  price_transition_states cycle2.1 !! "XYZ.json" = Some false ∧
  cycle3.2 =
    [("XYZ.json", send_trading_status_alert "XYZ" (JStr "13.00"));
     ("XYZ.json", send_discord_alert "XYZ" {[ "midPx" := (JNull, JStr "13.00") ]})].
Proof. vm_compute. repeat split. Qed.

(** *** A file met for the first time *)




(** *** The first price *)




(** *** Differences in one field *)

Lemma field_change_same was_trading (previous_data cleaned_current : record) key :
  same_field previous_data cleaned_current key = true →
  field_change was_trading key (previous_data !! key) (cleaned_current !! key) = None.
Proof.
  unfold same_field, field_change, py_ne.
  destruct (previous_data !! key), (cleaned_current !! key); try done.
  intros ->. by destruct (bool_decide (key = "midPx") && was_trading).
Qed.

(** C6, as amended.  For a file whose stored status is true, a cycle in which
    the stored and the cleaned current record agree on every field but
    [midPx], and in which [midPx] is not removed (its value changed, or it
    was added), makes no notifier call at all. *)
Theorem C6_price_changes_silent_once_trading self f (stored data : record) :
  previous_states self !! f = Some stored →
  price_transition_states self !! f = Some true →
  (∀ key, key ≠ "midPx" → same_field stored (remove_ignored data) key = true) →
  (is_Some (stored !! "midPx") → is_Some (data !! "midPx")) →
  (process_file self f (Loaded (JDict data))).2 = [].
Proof.
  intros Hstored Hflag Hsame Hkept. simpl. rewrite Hstored, Hflag. simpl.
  assert (detect_changes true stored (remove_ignored data) = ∅) as ->; [|done].
  apply map_eq. intros key. rewrite detect_changes_lookup, lookup_empty.
  destruct (decide (key = "midPx")) as [->|Hne]; [|by apply field_change_same, Hsame].
  rewrite remove_ignored_midPx. unfold field_change.
  destruct (data !! "midPx") as [value|] eqn:Hnew; [done|].
  destruct (stored !! "midPx") as [old|] eqn:Hold; [|done].
  destruct Hkept as [? [=]]. by eexists.
Qed.

Lemma C6_witness_same_elsewhere key :
  key ≠ "midPx" →
  same_field (Scenario.price_only "12.50")
             (remove_ignored (Scenario.price_only "13.00")) key = true.
Proof.
  intros Hne. unfold same_field, Scenario.price_only.
  rewrite remove_ignored_lookup.
  rewrite !lookup_singleton_ne by done. by case_decide.
Qed.

Lemma C6_price_changes_silent_once_trading_witness :
  (process_file (init (Scenario.xyz_dir (Scenario.price_only "12.50"))) "XYZ.json"
     (Loaded (JDict (Scenario.price_only "13.00")))).2 = [].
Proof.
  apply (C6_price_changes_silent_once_trading
           (init (Scenario.xyz_dir (Scenario.price_only "12.50"))) "XYZ.json"
           (Scenario.price_only "12.50") (Scenario.price_only "13.00")).
  - reflexivity.
  - reflexivity.
  - exact C6_witness_same_elsewhere.
  - intros _. exists (JStr "13.00"). reflexivity.
Defined.

(** C6, counterexample.  Stored [{"midPx": "12.50"}] with status true, current
    [{}]: the removal of [midPx] is sent as a change. *)
Lemma C6_removed_price_is_reported :
  let self := init (Scenario.xyz_dir (Scenario.price_only "12.50")) in
  price_transition_states self !! "XYZ.json" = Some true ∧
  previous_states self !! "XYZ.json" = Some (Scenario.price_only "12.50") ∧
  (check_for_changes self (Scenario.xyz_dir ∅)).2 =
    [("XYZ.json", send_discord_alert "XYZ" {[ "midPx" := (JStr "12.50", JNull) ]})].
Proof. vm_compute. repeat split. Qed.

(** C7, as amended.  Two records differ in a field when one of them lacks it
    or when Python's [!=] holds between its two values: [True] against [1],
    or [1] against [1.0], is no difference, and [NaN] differs from itself.
    When two cleaned records differ in exactly one field in this sense, the
    change set has exactly one entry, for that field, with [None] on the
    side where the field is missing; the one exception is [midPx] present in
    the current record of a file whose stored status is true. *)
Theorem C7_one_field_one_entry was_trading (previous_data cleaned_current : record) key :
  differ_only_in previous_data cleaned_current key →
  (key = "midPx" → was_trading = true → cleaned_current !! key = None) →
  detect_changes was_trading previous_data cleaned_current =
    {[ key := (default JNull (previous_data !! key),
               default JNull (cleaned_current !! key)) ]}.
Proof.
  intros [Hdiff Hsame] Hsignal. apply map_eq. intros k.
  rewrite detect_changes_lookup.
  destruct (decide (k = key)) as [->|Hne].
  - rewrite lookup_singleton_eq. unfold same_field in Hdiff. unfold field_change, py_ne.
    destruct (cleaned_current !! key) as [value|] eqn:Hnew.
    + assert (bool_decide (key = "midPx") && was_trading = false) as ->.
      { destruct (bool_decide (key = "midPx")) eqn:Hk, was_trading; try done.
        apply bool_decide_eq_true in Hk. by specialize (Hsignal Hk eq_refl). }
      destruct (previous_data !! key) as [old|]; [|done].
      simpl. by rewrite Hdiff.
    + by destruct (previous_data !! key).
  - rewrite lookup_singleton_ne by done. by apply field_change_same, Hsame.
Qed.

Lemma C7_witness_deploy_time_only :
  differ_only_in Scenario.supply_deployed Scenario.supply_only "deployTime".
Proof.
  split; [reflexivity|]. intros other Hne.
  unfold same_field, Scenario.supply_deployed, Scenario.supply_only.
  destruct (decide (other = "totalSupply")) as [->|Hne'].
  - reflexivity.
  - by rewrite !lookup_insert_ne, !lookup_singleton_ne.
Qed.

Lemma C7_one_field_one_entry_witness :
  detect_changes false Scenario.supply_deployed Scenario.supply_only =
    {[ "deployTime" := (JStr "2024-01-01T00:00:00Z", JNull) ]}.
Proof.
  apply (C7_one_field_one_entry false Scenario.supply_deployed Scenario.supply_only
           "deployTime").
  - exact C7_witness_deploy_time_only.
  - discriminate.
Defined.

Lemma C7_price_differs_only_in_midPx :
  differ_only_in (Scenario.price_only "12.50") (Scenario.price_only "13.00") "midPx".
Proof.
  split; [reflexivity|]. intros other Hne.
  unfold same_field, Scenario.price_only. by rewrite !lookup_singleton_ne.
Qed.

(** C7, counterexample.  [{"midPx": "12.50"}] and [{"midPx": "13.00"}] differ
    in exactly one field, and for a file whose stored status is true the
    change set is empty.  So it is, whatever the status, for
    [{"listed": true}] and [{"listed": 1}], which are different documents
    with values that Python finds equal. *)
Lemma C7_price_difference_without_entry :
  differ_only_in (Scenario.price_only "12.50") (Scenario.price_only "13.00") "midPx" ∧
  detect_changes true (Scenario.price_only "12.50") (Scenario.price_only "13.00") = ∅ ∧
  ({[ "listed" := JBool true ]} : record) ≠ {[ "listed" := JInt 1 ]} ∧
  detect_changes false {[ "listed" := JBool true ]} {[ "listed" := JInt 1 ]} = ∅.
Proof.
  split_and!; [exact C7_price_differs_only_in_midPx|reflexivity| |reflexivity].
  intros Heq. apply (f_equal (λ data : record, data !! "listed")) in Heq.
  by rewrite !lookup_singleton_eq in Heq.
Qed.

(** Values that Python finds equal are no difference: [True] and [1], or [1]
    and [1.0], in the same field give no entry. *)
Example equal_values_of_other_types :
  detect_changes false {[ "listed" := JBool true ]} {[ "listed" := JInt 1 ]} = ∅ ∧
  detect_changes false {[ "szDecimals" := JInt 1 ]}
                       {[ "szDecimals" := JFloat (Finite 1) ]} = ∅.
Proof. split; reflexivity. Qed.

(** X12.  The removal of one field, from a record whose other values are
    not [NaN], is one entry, whatever the stored status. *)
Lemma removed_field_one_entry was_trading (previous_data : record) key old :
  previous_data !! key = Some old →
  NaN_free (delete key previous_data) →
  detect_changes was_trading previous_data (delete key previous_data) =
    {[ key := (old, JNull) ]}.
Proof.
  intros Hold Hrest. apply map_eq. intros k. rewrite detect_changes_lookup.
  destruct (decide (k = key)) as [->|Hne].
  - by rewrite lookup_delete_eq, lookup_singleton_eq, Hold.
  - rewrite lookup_singleton_ne by done.
    pose proof (Hrest k) as Hk. rewrite lookup_delete_ne in Hk |- * by done.
    unfold field_change. destruct (previous_data !! k) as [value|]; [|done].
    rewrite py_ne_refl by by apply Hk.
    by destruct (bool_decide (k = "midPx") && was_trading).
Qed.

(** *** An unchanged file *)

(** C8, as amended.  Comparing a record none of whose values is [NaN] with
    itself gives an empty change set, whatever the stored status.  A file
    whose cleaned content is such a record, and is the stored record, keeps
    its stored record and gets no change alert; when the stored status is the
    current one as well, it is processed without any notifier call and
    without changing the tables. *)
Theorem C8_same_record_no_changes :
  (∀ was_trading (R : record),
     NaN_free R → detect_changes was_trading R R = ∅) ∧
  (∀ self f (data : record),
     previous_states self !! f = Some (remove_ignored data) →
     NaN_free (remove_ignored data) →
     previous_states (process_file self f (Loaded (JDict data))).1 =
       previous_states self ∧
     (∀ id changes,
        send_discord_alert id changes ∉ (process_file self f (Loaded (JDict data))).2) ∧
     (price_transition_states self !! f = Some (trading data) →
      process_file self f (Loaded (JDict data)) = (self, []))).
Proof.
  split; [apply detect_changes_same|].
  intros self f data Hstored Hfree.
  rewrite process_file_object. cbv zeta.
  rewrite Hstored. cbn [default from_option id].
  rewrite detect_changes_same, map_size_empty, printable_changes_empty by done.
  cbn [Nat.eqb]. rewrite (insert_id (previous_states self)) by done.
  split_and!.
  - by destruct (_ && _ && negb _).
  - intros id changes.
    destruct (_ && _ && negb _); cbn [snd]; [apply not_elem_of_nil|].
    destruct (_ && _); [|apply not_elem_of_nil].
    intros Hin. by apply list_elem_of_singleton in Hin.
  - intros Hflag. rewrite Hflag. cbn [default from_option id].
    replace (negb (trading data) && trading data) with false
      by (by destruct (trading data)).
    cbn [andb]. destruct self as [flags stored]. cbn in *.
    by rewrite insert_id.
Qed.

Lemma C8_same_record_no_changes_witness :
  detect_changes true Scenario.supply_deployed Scenario.supply_deployed = ∅ ∧
  process_file (init (Scenario.xyz_dir (Scenario.xyz_trading "12.50"))) "XYZ.json"
    (Loaded (JDict (Scenario.xyz_trading "12.50"))) =
  (init (Scenario.xyz_dir (Scenario.xyz_trading "12.50")), []).
Proof.
  split.
  - apply (proj1 C8_same_record_no_changes true Scenario.supply_deployed).
    compute_done.
  - apply (proj2 C8_same_record_no_changes
             (init (Scenario.xyz_dir (Scenario.xyz_trading "12.50"))) "XYZ.json"
             (Scenario.xyz_trading "12.50")).
    + reflexivity.
    + compute_done.
    + reflexivity.
Defined.

(** C8, counterexample.  [{"totalSupply": NaN}] compared with itself has one
    entry, since [NaN != NaN] holds; a file with this content, loaded at
    start-up and unchanged since, gets a change alert in every cycle. *)
Lemma C8_NaN_differs_from_itself :
  detect_changes false Scenario.supply_nan Scenario.supply_nan =
    {[ "totalSupply" := (JFloat NaN, JFloat NaN) ]} ∧
  let self := init (Scenario.xyz_dir Scenario.supply_nan) in
  previous_states self !! "XYZ.json" = Some Scenario.supply_nan ∧
  check_for_changes self (Scenario.xyz_dir Scenario.supply_nan) =
    (self,
     [("XYZ.json",
       send_discord_alert "XYZ" {[ "totalSupply" := (JFloat NaN, JFloat NaN) ]})]).
Proof. vm_compute. repeat split. Qed.
(** *** Ignored fields *)

Lemma process_file_alert_clean self f file id (changes : change_set) key :
  consistent self →
  send_discord_alert id changes ∈ (process_file self f file).2 →
  key ∈ ignored_fields →
  changes !! key = None.
Proof.
  intros [_ Hclean] Hin Hkey.
  destruct file as [|[| | | | | |current]];
    try (by apply elem_of_nil in Hin);
    try (simpl in Hin; destruct (previous_states self !! f); no_such_call Hin).
  apply process_file_object_calls in Hin as [[[=] _]|[[[=] _]|[[= _ ->] _]]].
  rewrite detect_changes_lookup, remove_ignored_lookup.
  rewrite decide_True by done.
  destruct (previous_states self !! f) as [stored|] eqn:Hstored; simpl.
  - by rewrite (Hclean f stored key).
  - by rewrite lookup_empty.
Qed.

Lemma check_for_changes_alert_clean self (dir : directory) f id (changes : change_set) key :
  consistent self →
  (f, send_discord_alert id changes) ∈ (check_for_changes self dir).2 →
  key ∈ ignored_fields →
  changes !! key = None.
Proof.
  revert self. induction dir as [|[name file] rest IH]; intros self Hc Hin Hkey.
  { by apply elem_of_nil in Hin. }
  simpl in Hin. destruct (endswith name ".json"); [|by eapply IH].
  pose proof (consistent_process_file self name file Hc) as Hc1.
  pose proof (process_file_alert_clean self name file id changes key Hc) as Hcalls.
  destruct (process_file self name file) as [self1 calls]. simpl in *.
  specialize (IH self1 Hc1).
  destruct (check_for_changes self1 rest) as [self2 log]. simpl in *.
  apply elem_of_app in Hin as [Hin|Hin]; [|by apply IH].
  apply list_elem_of_fmap in Hin as (c & [= <- <-] & Hin). by apply Hcalls.
Qed.

Lemma run_alert_clean self (cycles : list directory) f id (changes : change_set) key :
  consistent self →
  (f, send_discord_alert id changes) ∈ (run self cycles).2 →
  key ∈ ignored_fields →
  changes !! key = None.
Proof.
  revert self. induction cycles as [|dir later IH]; intros self Hc Hin Hkey.
  { by apply elem_of_nil in Hin. }
  simpl in Hin.
  pose proof (consistent_check_for_changes self dir Hc) as Hc1.
  pose proof (check_for_changes_alert_clean self dir f id changes key Hc) as Hlog.
  destruct (check_for_changes self dir) as [self1 log1]. simpl in *.
  specialize (IH self1 Hc1).
  destruct (run self1 later) as [self2 log2]. simpl in *.
  apply elem_of_app in Hin as [Hin|Hin]; [by apply Hlog|by apply IH].
Qed.

Lemma same_cleaned_same_midPx (data data' : record) :
  remove_ignored data = remove_ignored data' →
  dict_get data "midPx" = dict_get data' "midPx".
Proof.
  intros Heq. unfold dict_get.
  by rewrite <- (remove_ignored_midPx data), <- (remove_ignored_midPx data'), Heq.
Qed.

(** C9.  In no run of the monitor does a change set sent to
    [send_discord_alert] hold [markPx] or [prevDayPx]; and two contents of a
    file that differ in those fields only are processed alike: same tables
    afterwards, hence the same stored trading status, and the same notifier
    calls. *)
Theorem C9_ignored_fields_have_no_effect :
  (∀ (initial : directory) (cycles : list directory) f id
     (changes : change_set) key,
     (f, send_discord_alert id changes) ∈ (run (init initial) cycles).2 →
     key ∈ ignored_fields →
     changes !! key = None) ∧
  (∀ self f (data data' : record),
     remove_ignored data = remove_ignored data' →
     (process_file self f (Loaded (JDict data))).1 =
       (process_file self f (Loaded (JDict data'))).1 ∧
     as_read <$> (process_file self f (Loaded (JDict data))).2 =
       as_read <$> (process_file self f (Loaded (JDict data'))).2).
Proof.
  split.
  { intros initial cycles f id changes key Hin Hkey.
    eapply run_alert_clean; [|done..].
    apply consistent_reachable, reachable_init. }
  intros self f data data' Hsame.
  pose proof (same_cleaned_same_midPx data data' Hsame) as Hprice.
  assert (as_read <$>
            match previous_states self !! f with
            | None => [send_new_token_alert (token_id_of f) (JDict data)]
            | Some _ => []
            end =
          as_read <$>
            match previous_states self !! f with
            | None => [send_new_token_alert (token_id_of f) (JDict data')]
            | Some _ => []
            end) as Hnew.
  { destruct (previous_states self !! f); [done|]. simpl. by rewrite Hprice. }
  rewrite !process_file_object. cbv zeta.
  unfold trading. rewrite Hsame, Hprice.
  destruct (_ && _ && negb _); [done|].
  destruct (printable_changes _); cbn [fst snd]; (split; [done|]);
    rewrite !fmap_app; by f_equal.
Qed.

Lemma C9_witness_alert :
  ("XYZ.json",
   send_discord_alert "XYZ"
     {[ "name" := (JNull, JStr "XYZ"); "midPx" := (JNull, JNull) ]})
  ∈ (run (init []) [Scenario.xyz_dir (Scenario.xyz_marked "1.00")]).2.
Proof. apply list_elem_of_In. vm_compute. right. left. reflexivity. Qed.

Lemma C9_witness_ignored : "markPx" ∈ ignored_fields.
Proof. unfold ignored_fields. set_solver. Qed.

Lemma C9_ignored_fields_have_no_effect_witness :
  ({[ "name" := (JNull, JStr "XYZ"); "midPx" := (JNull, JNull) ]} : change_set)
    !! "markPx" = None ∧
  (process_file (init []) "XYZ.json" (Loaded (JDict (Scenario.xyz_marked "1.00")))).1 =
    (process_file (init []) "XYZ.json" (Loaded (JDict (Scenario.xyz_marked "2.00")))).1 ∧
  as_read <$>
    (process_file (init []) "XYZ.json" (Loaded (JDict (Scenario.xyz_marked "1.00")))).2 =
  as_read <$>
    (process_file (init []) "XYZ.json" (Loaded (JDict (Scenario.xyz_marked "2.00")))).2.
Proof.
  split.
  - apply (proj1 C9_ignored_fields_have_no_effect
             [] [Scenario.xyz_dir (Scenario.xyz_marked "1.00")] "XYZ.json" "XYZ"
             {[ "name" := (JNull, JStr "XYZ"); "midPx" := (JNull, JNull) ]} "markPx").
    + exact C9_witness_alert.
    + exact C9_witness_ignored.
  - apply (proj2 C9_ignored_fields_have_no_effect
             (init []) "XYZ.json"
             (Scenario.xyz_marked "1.00") (Scenario.xyz_marked "2.00")).
    reflexivity.
Defined.

(** *** A file that leaves the directory and comes back *)





(** The scenario of C10 on a run: the file is stored, missing for a cycle,
    and back with a price. *)
Example absent_then_back :
  (run (init (Scenario.xyz_dir Scenario.xyz_not_trading))
       [[]; Scenario.xyz_dir (Scenario.xyz_trading "12.50")]).2 =
    [("XYZ.json", send_trading_status_alert "XYZ" (JStr "12.50"));
     ("XYZ.json", send_discord_alert "XYZ" {[ "midPx" := (JNull, JStr "12.50") ]})].
Proof. vm_compute. reflexivity. Qed.
(** *** Whole directories: what a cycle stores and when it is silent *)


Lemma process_file_settled self f (data : record) :
  price_transition_states self !! f = Some (trading data) →
  previous_states self !! f = Some (remove_ignored data) →
  NaN_free (remove_ignored data) →
  process_file self f (Loaded (JDict data)) = (self, []).
Proof.
  intros Hflag Hstored Hfree.
  rewrite process_file_object. cbv zeta.
  rewrite Hstored, Hflag. cbn [default from_option id].
  replace (negb (trading data) && trading data) with false
    by (by destruct (trading data)).
  rewrite detect_changes_same, map_size_empty, printable_changes_empty by done.
  cbn [andb Nat.eqb]. destruct self as [flags stored]. cbn in *.
  by rewrite !insert_id.
Qed.

Lemma check_for_changes_silent self (dir : directory) :
  (∀ f file, (f, file) ∈ dir → endswith f ".json" = true →
             process_file self f file = (self, [])) →
  check_for_changes self dir = (self, []).
Proof.
  induction dir as [|[name file] rest IH]; intros Hsilent; [done|].
  simpl. destruct (endswith name ".json") eqn:Hjson.
  - rewrite (Hsilent name file); [|left|done].
    rewrite IH; [done|]. intros f file' Hin. apply Hsilent. by right.
  - apply IH. intros f file' Hin. apply Hsilent. by right.
Qed.

Lemma load_initial_states_cons self name file (rest : directory) :
  load_initial_states self ((name, file) :: rest) =
  load_initial_states
    (if endswith name ".json" then load_file self name file else self) rest.
Proof.
  simpl. destruct (endswith name ".json"); [|done].
  by destruct file as [|[| | | | | |token_data]].
Qed.

Lemma load_file_other self name file (other : string) :
  other ≠ name →
  price_transition_states (load_file self name file) !! other =
    price_transition_states self !! other ∧
  previous_states (load_file self name file) !! other =
    previous_states self !! other.
Proof.
  intros Hne. destruct file as [|[| | | | | |token_data]]; simpl; try done.
  by rewrite !lookup_insert_ne.
Qed.

Lemma load_initial_states_untouched self (dir : directory) filename :
  (∀ file, (filename, file) ∈ dir → endswith filename ".json" = false) →
  price_transition_states (load_initial_states self dir) !! filename =
    price_transition_states self !! filename ∧
  previous_states (load_initial_states self dir) !! filename =
    previous_states self !! filename.
Proof.
  revert self. induction dir as [|[name file] rest IH]; intros self Hskip; [done|].
  rewrite load_initial_states_cons.
  destruct (IH (if endswith name ".json" then load_file self name file else self))
    as [-> ->].
  { intros file' Hin. apply (Hskip file'). by right. }
  destruct (endswith name ".json") eqn:Hjson; [|done].
  apply load_file_other. intros ->. rewrite (Hskip file) in Hjson; [done|left].
Qed.

Lemma load_initial_states_present self (dir : directory) filename file :
  NoDup dir.*1 →
  (filename, file) ∈ dir →
  endswith filename ".json" = true →
  price_transition_states (load_initial_states self dir) !! filename =
    price_transition_states (load_file self filename file) !! filename ∧
  previous_states (load_initial_states self dir) !! filename =
    previous_states (load_file self filename file) !! filename.
Proof.
  revert self. induction dir as [|[name file'] rest IH]; intros self Hnd Hin Hjson.
  { by apply elem_of_nil in Hin. }
  rewrite fmap_cons in Hnd. apply NoDup_cons in Hnd as [Hfresh Hnd].
  simpl in Hfresh. rewrite load_initial_states_cons.
  apply elem_of_cons in Hin as [Heq|Hin].
  - injection Heq as <- <-. rewrite Hjson.
    apply load_initial_states_untouched.
    intros file' Hin'. exfalso. apply Hfresh.
    apply list_elem_of_fmap. by exists (filename, file').
  - assert (name ≠ filename) as Hne.
    { intros ->. apply Hfresh. apply list_elem_of_fmap. by exists (filename, file). }
    destruct (IH (if endswith name ".json" then load_file self name file' else self)
                Hnd Hin Hjson) as [-> ->].
    destruct (endswith name ".json"); [|done].
    destruct (load_file_other self name file' filename (not_eq_sym Hne)) as [Hf Hs].
    destruct file as [|[| | | | | |token_data]]; simpl; try done.
    by rewrite !lookup_insert_eq.
Qed.

Lemma entry_of_name (dir : directory) (f : string) :
  f ∈ dir.*1 → ∃ file, (f, file) ∈ dir.
Proof.
  intros ([name file] & -> & Hin)%list_elem_of_fmap. by exists file.
Qed.

Lemma name_of_entry (dir : directory) (f : string) file :
  (f, file) ∈ dir → f ∈ dir.*1.
Proof. intros Hin. apply list_elem_of_fmap. by exists (f, file). Qed.

Lemma same_entry (dir : directory) (f : string) file file' :
  NoDup dir.*1 → (f, file) ∈ dir → (f, file') ∈ dir → file = file'.
Proof.
  induction dir as [|[name x] rest IH]; intros Hnd Hin Hin'.
  { by apply elem_of_nil in Hin. }
  rewrite fmap_cons in Hnd. apply NoDup_cons in Hnd as [Hfresh Hnd].
  simpl in Hfresh.
  apply elem_of_cons in Hin as [Heq|Hin], Hin' as [Heq'|Hin'].
  - congruence.
  - injection Heq as -> ->. by apply name_of_entry in Hin'.
  - injection Heq' as -> ->. by apply name_of_entry in Hin.
  - by apply IH.
Qed.


(** X2.  At start-up the monitor stores exactly the [.json] files of the
    directory that hold an object, each under its cleaned content. *)
Theorem init_stores_the_object_files (dir : directory) f (stored : record) :
  NoDup dir.*1 →
  previous_states (init dir) !! f = Some stored ↔
  ∃ data, (f, Loaded (JDict data)) ∈ dir ∧ endswith f ".json" = true ∧
          stored = remove_ignored data.
Proof.
  intros Hnd. unfold init.
  set (empty := {| price_transition_states := ∅; previous_states := ∅ |}).
  split.
  - intros Hstored.
    destruct (endswith f ".json") eqn:Hjson; last first.
    { destruct (load_initial_states_untouched empty dir f) as [_ Hs]; [done|].
      rewrite Hs in Hstored. simpl in Hstored. by rewrite lookup_empty in Hstored. }
    destruct (decide (f ∈ dir.*1)) as [Hin|Hnotin]; last first.
    { destruct (load_initial_states_untouched empty dir f) as [_ Hs].
      { intros file Hin. by apply name_of_entry in Hin. }
      rewrite Hs in Hstored. simpl in Hstored. by rewrite lookup_empty in Hstored. }
    apply entry_of_name in Hin as [file Hin].
    destruct (load_initial_states_present empty dir f file Hnd Hin Hjson) as [_ Hs].
    rewrite Hs in Hstored.
    destruct file as [|[| | | | | |data]]; simpl in Hstored;
      try by rewrite lookup_empty in Hstored.
    rewrite lookup_insert_eq in Hstored. injection Hstored as <-. by exists data.
  - intros (data & Hin & Hjson & ->).
    destruct (load_initial_states_present empty dir f _ Hnd Hin Hjson) as [_ ->].
    simpl. by rewrite lookup_insert_eq.
Qed.

Lemma init_stores_the_object_files_witness :
  previous_states (init (Scenario.xyz_dir Scenario.xyz_not_trading)) !! "XYZ.json" =
    Some Scenario.xyz_not_trading ↔
  ∃ data, ("XYZ.json", Loaded (JDict data)) ∈ Scenario.xyz_dir Scenario.xyz_not_trading ∧
          endswith "XYZ.json" ".json" = true ∧
          Scenario.xyz_not_trading = remove_ignored data.
Proof.
  apply (init_stores_the_object_files
           (Scenario.xyz_dir Scenario.xyz_not_trading) "XYZ.json"
           Scenario.xyz_not_trading).
  repeat constructor. apply not_elem_of_nil.
Defined.


(** *** Silence on an unchanged directory *)

Lemma stores_after_cycle self (dir : directory) f (data : record) :
  NoDup dir.*1 →
  (f, Loaded (JDict data)) ∈ dir →
  endswith f ".json" = true →
  printable_record (default ∅ (previous_states self !! f)) →
  printable_record (remove_ignored data) →
  price_transition_states (check_for_changes self dir).1 !! f = Some (trading data) ∧
  previous_states (check_for_changes self dir).1 !! f = Some (remove_ignored data).
Proof.
  intros Hnd Hin Hjson Hstored Hcurrent.
  destruct (check_for_changes_present self dir f _ Hnd Hin Hjson) as (-> & -> & _).
  rewrite process_file_printed by done. cbv zeta.
  cbn [fst price_transition_states previous_states].
  by rewrite !lookup_insert_eq.
Qed.

(** X3.  The first cycle after start-up, over the directory as it was loaded, makes
    no notifier call and leaves the tables as they are, provided no [.json]
    file of the directory holds a document that is not an object, or an
    object with the value [NaN] in a field that is not ignored. *)
Theorem first_cycle_after_start_is_silent (dir : directory) :
  NoDup dir.*1 →
  (∀ f file, (f, file) ∈ dir → endswith f ".json" = true →
             not_an_object file = false) →
  (∀ f data, (f, Loaded (JDict data)) ∈ dir → endswith f ".json" = true →
             NaN_free (remove_ignored data)) →
  check_for_changes (init dir) dir = (init dir, []).
Proof.
  intros Hnd Hobjects Hfree. apply check_for_changes_silent.
  intros f file Hin Hjson. specialize (Hobjects f file Hin Hjson).
  destruct file as [|[| | | | | |data]]; try done.
  unfold init.
  set (empty := {| price_transition_states := ∅; previous_states := ∅ |}).
  destruct (load_initial_states_present empty dir f _ Hnd Hin Hjson)
    as [Hflag Hstored].
  simpl in Hflag, Hstored.
  rewrite lookup_insert_eq in Hflag. rewrite lookup_insert_eq in Hstored.
  apply process_file_settled; [done..|]. by apply (Hfree f).
Qed.

Lemma xyz_dir_objects (data : record) f file :
  (f, file) ∈ Scenario.xyz_dir data → endswith f ".json" = true →
  not_an_object file = false.
Proof. intros Hin%list_elem_of_singleton _. by injection Hin as -> ->. Qed.

Lemma xyz_dir_NoDup (data : record) : NoDup (Scenario.xyz_dir data).*1.
Proof. repeat constructor. apply not_elem_of_nil. Qed.

Lemma xyz_dir_entry (P : record → Prop) (content : record) f data :
  P (remove_ignored content) →
  (f, Loaded (JDict data)) ∈ Scenario.xyz_dir content →
  P (remove_ignored data).
Proof. intros HP Hin%list_elem_of_singleton. by injection Hin as -> ->. Qed.

Lemma first_cycle_after_start_is_silent_witness :
  check_for_changes (init (Scenario.xyz_dir (Scenario.xyz_trading "12.50")))
    (Scenario.xyz_dir (Scenario.xyz_trading "12.50")) =
  (init (Scenario.xyz_dir (Scenario.xyz_trading "12.50")), []).
Proof.
  apply (first_cycle_after_start_is_silent
           (Scenario.xyz_dir (Scenario.xyz_trading "12.50"))).
  - apply xyz_dir_NoDup.
  - apply xyz_dir_objects.
  - intros f data Hin _.
    apply (xyz_dir_entry NaN_free (Scenario.xyz_trading "12.50") f data);
      [compute_done|exact Hin].
Defined.

(** The file of the counterexample of C8 is not silent after start-up. *)
Example first_cycle_with_NaN :
  (check_for_changes (init (Scenario.xyz_dir Scenario.supply_nan))
     (Scenario.xyz_dir Scenario.supply_nan)).2 =
  [("XYZ.json",
    send_discord_alert "XYZ" {[ "totalSupply" := (JFloat NaN, JFloat NaN) ]})].
Proof. vm_compute. reflexivity. Qed.

(** X5.  A second pass over an unchanged directory, from any tables, makes no
    notifier call and changes nothing: every difference is reported once.
    This holds when, for every [.json] file read as an object, the stored
    and the current record can be printed and no value of the cleaned record
    is [NaN], and when every [.json] file that holds a document that is not
    an object is stored already. *)
Theorem second_pass_is_silent self (dir : directory) :
  NoDup dir.*1 →
  (∀ f file, (f, file) ∈ dir → endswith f ".json" = true →
             not_an_object file = true → is_Some (previous_states self !! f)) →
  (∀ f data, (f, Loaded (JDict data)) ∈ dir → endswith f ".json" = true →
             printable_record (default ∅ (previous_states self !! f)) ∧
             printable_record (remove_ignored data) ∧
             NaN_free (remove_ignored data)) →
  check_for_changes (check_for_changes self dir).1 dir =
    ((check_for_changes self dir).1, []).
Proof.
  intros Hnd Hstored Hplain. apply check_for_changes_silent.
  intros f file Hin Hjson.
  destruct file as [|document]; [done|].
  destruct (not_an_object (Loaded document)) eqn:Hobject.
  - destruct (Hstored f _ Hin Hjson Hobject) as [stored Hf].
    destruct (check_for_changes_present self dir f _ Hnd Hin Hjson) as (_ & Hs & _).
    destruct document; try done; simpl in *; by rewrite Hs, Hf.
  - destruct document as [| | | | | |data]; try done.
    destruct (Hplain f data Hin Hjson) as (Hprinted & Hprintable & Hfree).
    destruct (stores_after_cycle self dir f data Hnd Hin Hjson Hprinted Hprintable)
      as [Hflag Hs].
    by apply process_file_settled.
Qed.

Lemma second_pass_is_silent_witness_stored f file :
  (f, file) ∈ Scenario.xyz_dir (Scenario.xyz_trading "12.50") →
  endswith f ".json" = true →
  not_an_object file = true →
  is_Some (previous_states (init []) !! f).
Proof. intros Hin%list_elem_of_singleton _. by injection Hin as -> ->. Qed.

Lemma second_pass_is_silent_witness_plain f data :
  (f, Loaded (JDict data)) ∈ Scenario.xyz_dir (Scenario.xyz_trading "12.50") →
  endswith f ".json" = true →
  printable_record (default ∅ (previous_states (init []) !! f)) ∧
  printable_record (remove_ignored data) ∧
  NaN_free (remove_ignored data).
Proof.
  intros Hin%list_elem_of_singleton _. injection Hin as -> ->.
  split_and!; compute_done.
Qed.

Lemma second_pass_is_silent_witness :
  check_for_changes
    (check_for_changes (init []) (Scenario.xyz_dir (Scenario.xyz_trading "12.50"))).1
    (Scenario.xyz_dir (Scenario.xyz_trading "12.50")) =
  ((check_for_changes (init []) (Scenario.xyz_dir (Scenario.xyz_trading "12.50"))).1, []).
Proof.
  apply (second_pass_is_silent (init [])
           (Scenario.xyz_dir (Scenario.xyz_trading "12.50"))).
  - apply xyz_dir_NoDup.
  - apply second_pass_is_silent_witness_stored.
  - apply second_pass_is_silent_witness_plain.
Defined.

(** *** A [.json] file that does not hold an object *)





(** *** Files do not interfere, and the listing order does not matter *)








(** *** The change set, field by field *)

(** X9.  The change set has an entry exactly for the fields on which the stored
    and the current record disagree, [midPx] of a trading token left out
    whenever the current record has it; and an entry holds the stored and the
    current value of its field, [None] standing for a missing one. *)
Theorem change_set_lists_the_differing_fields was_trading
    (previous_data cleaned_current : record) key :
  (detect_changes was_trading previous_data cleaned_current !! key = None ↔
   same_field previous_data cleaned_current key = true ∨
   (key = "midPx" ∧ was_trading = true ∧ is_Some (cleaned_current !! key))) ∧
  (∀ old new,
     detect_changes was_trading previous_data cleaned_current !! key = Some (old, new) →
     old = default JNull (previous_data !! key) ∧
     new = default JNull (cleaned_current !! key)).
Proof. apply detect_changes_entry. Qed.

(** *** What a cycle never does *)

Lemma process_file_call_well_formed self f file c :
  c ∈ (process_file self f file).2 →
  (∃ document, file = Loaded document) ∧
  token_id_in c = token_id_of f ∧
  (∀ id changes, c = send_discord_alert id changes → changes ≠ ∅) ∧
  (∀ id price, c = send_trading_status_alert id price → is_not_None price = true).
Proof.
  destruct file as [|document]; [by intros ?%elem_of_nil|].
  intros Hin. split; [by exists document|].
  destruct (not_an_object (Loaded document)) eqn:Hobject.
  { rewrite process_file_document in Hin by done. cbn [snd] in Hin.
    destruct (previous_states self !! f); [by apply elem_of_nil in Hin|].
    by apply list_elem_of_singleton in Hin as ->. }
  destruct document as [| | | | | |data]; try done.
  apply process_file_object_calls in Hin
    as [[-> _]|[(-> & _ & Htrading)|[-> Hchanges]]].
  - done.
  - split_and!; [done..|]. by intros id price [= _ <-].
  - split_and!; [done| |done]. by intros id changes [= _ <-].
Qed.

(** X10.  Every notifier call of a cycle is made for a file of the directory whose
    name ends in [.json] and which was read and parsed; it names the token by
    the file name without [.json]; a change alert never carries an empty
    change set, and a trading status alert never carries the price [None]. *)
Theorem calls_of_a_cycle_are_well_founded self (dir : directory) f c :
  (f, c) ∈ (check_for_changes self dir).2 →
  endswith f ".json" = true ∧
  (∃ document, (f, Loaded document) ∈ dir) ∧
  token_id_in c = token_id_of f ∧
  (∀ id changes, c = send_discord_alert id changes → changes ≠ ∅) ∧
  (∀ id price, c = send_trading_status_alert id price → is_not_None price = true).
Proof.
  revert self. induction dir as [|[name file] rest IH]; intros self Hin.
  { by apply elem_of_nil in Hin. }
  simpl in Hin. destruct (endswith name ".json") eqn:Hjson.
  - pose proof (process_file_call_well_formed self name file c) as Hcall.
    destruct (process_file self name file) as [self1 calls]. simpl in *.
    specialize (IH self1).
    destruct (check_for_changes self1 rest) as [self2 log]. simpl in *.
    apply elem_of_app in Hin as [Hin|Hin].
    + apply list_elem_of_fmap in Hin as (c' & [= <- <-] & Hin).
      destruct (Hcall Hin) as ((document & ->) & Hrest).
      split_and!; [done| |apply Hrest..]. exists document. left.
    + destruct (IH Hin) as (? & (document & ?) & ? & ? & ?).
      split_and!; [done| |done..]. exists document. by right.
  - destruct (IH self Hin) as (? & (document & ?) & ? & ? & ?).
    split_and!; [done| |done..]. exists document. by right.
Qed.

Lemma calls_of_a_cycle_witness_call :
  ("XYZ.json", send_trading_status_alert "XYZ" (JStr "12.50")) ∈
  (check_for_changes (init []) (Scenario.xyz_dir (Scenario.xyz_trading "12.50"))).2.
Proof. apply list_elem_of_In. vm_compute. right. left. reflexivity. Qed.

Lemma calls_of_a_cycle_are_well_founded_witness :
  endswith "XYZ.json" ".json" = true ∧
  (∃ document,
     ("XYZ.json", Loaded document) ∈ Scenario.xyz_dir (Scenario.xyz_trading "12.50")) ∧
  token_id_in (send_trading_status_alert "XYZ" (JStr "12.50")) = token_id_of "XYZ.json" ∧
  (∀ id changes,
     send_trading_status_alert "XYZ" (JStr "12.50") = send_discord_alert id changes →
     changes ≠ ∅) ∧
  (∀ id price,
     send_trading_status_alert "XYZ" (JStr "12.50") = send_trading_status_alert id price →
     is_not_None price = true).
Proof.
  apply (calls_of_a_cycle_are_well_founded (init [])
           (Scenario.xyz_dir (Scenario.xyz_trading "12.50")) "XYZ.json"
           (send_trading_status_alert "XYZ" (JStr "12.50"))).
  exact calls_of_a_cycle_witness_call.
Defined.

(** *** The two tables go together *)

(** X1.  From start-up on and after every cycle, every file with a stored
    record has a stored trading status, and no stored record holds [markPx]
    or [prevDayPx]. *)
Theorem tables_stay_in_step self :
  reachable self →
  dom (previous_states self) ⊆ dom (price_transition_states self) ∧
  (∀ f (stored : record) key,
     previous_states self !! f = Some stored →
     key ∈ ignored_fields → stored !! key = None).
Proof.
  intros [Hstatus Hclean]%consistent_reachable. split; [|done].
  intros f. rewrite !elem_of_dom. apply Hstatus.
Qed.

Lemma tables_stay_in_step_witness :
  dom (previous_states (init (Scenario.xyz_dir (Scenario.xyz_marked "1.00")))) ⊆
    dom (price_transition_states (init (Scenario.xyz_dir (Scenario.xyz_marked "1.00")))) ∧
  (∀ f (stored : record) key,
     previous_states (init (Scenario.xyz_dir (Scenario.xyz_marked "1.00"))) !! f =
       Some stored →
     key ∈ ignored_fields → stored !! key = None).
Proof.
  apply (tables_stay_in_step (init (Scenario.xyz_dir (Scenario.xyz_marked "1.00")))).
  apply reachable_init.
Defined.

(** The status can be stored without the record, and need not be that of the
    stored record: a value that cannot be printed ends the processing of the
    file between the two writes. *)
Example status_stored_without_record :
  let current : record :=
    {[ "name" := JStr Scenario.lone_surrogate; "midPx" := JStr "12.50" ]} in
  check_for_changes (init []) (Scenario.xyz_dir current) =
    ({| price_transition_states := {[ "XYZ.json" := true ]};
        previous_states := ∅ |},
     [("XYZ.json", send_new_token_alert "XYZ" (JDict current));
      ("XYZ.json", send_trading_status_alert "XYZ" (JStr "12.50"))]).
Proof. vm_compute. reflexivity. Qed.

Lemma removed_field_one_entry_witness :
  detect_changes true (Scenario.xyz_trading "12.50")
    (delete "midPx" (Scenario.xyz_trading "12.50")) =
  {[ "midPx" := (JStr "12.50", JNull) ]}.
Proof.
  apply (removed_field_one_entry true (Scenario.xyz_trading "12.50") "midPx"
           (JStr "12.50")).
  - reflexivity.
  - compute_done.
Defined.
End TokenDetailsFacts.

(** ** The pair monitor *)

Module HyperLiquidFacts.
Import HyperLiquid.


(** *** One asset *)

(** The three ways the loop body can go for one asset. *)
Lemma new_pair_effects_cases known_pairs (a : polled_asset) :
  (new_pair_effects known_pairs a = ([], true) ∧
   ¬ ((name a.1 ∉ known_pairs) ∧ truthy_id (tokenId a.1) = true ∧
      truthy_details a.2 = true)) ∨
  (∃ id details,
     tokenId a.1 = Some id ∧ a.2 = Some details ∧
     (name a.1 ∉ known_pairs) ∧ truthy_id (tokenId a.1) = true ∧
     truthy_details (Some details) = true ∧
     ((notification_prints (name a.1) details = true ∧
       new_pair_effects known_pairs a =
         ([save_token_details id details; notify_new_pair (name a.1) details;
           send_discord_alert (name a.1) details], true)) ∨
      (notification_prints (name a.1) details = false ∧
       new_pair_effects known_pairs a =
         ([save_token_details id details; notify_new_pair (name a.1) details],
          false)))).
Proof.
  destruct a as [[asset_name token_id] reply]. unfold new_pair_effects. cbn [fst snd name tokenId].
  destruct (decide (asset_name ∉ known_pairs)) as [Hnew|Hknown]; last first.
  { rewrite bool_decide_eq_false_2 by done. left. split; [done|tauto]. }
  rewrite bool_decide_eq_true_2 by done. cbn [andb].
  destruct (truthy_id token_id) eqn:Hid; last first.
  { left. split; [done|]. intros (_ & [=] & _). }
  destruct token_id as [id|]; [|done].
  destruct reply as [details|]; last first.
  { left. split; [done|]. intros (_ & _ & [=]). }
  destruct (truthy_details (Some details)) eqn:Hdetails; last first.
  { left. split; [done|]. intros (_ & _ & [=]). }
  right. exists id, details. split_and!; [done..|].
  destruct (notification_prints asset_name details); [left|right]; done.
Qed.


(** *** One cycle *)



Lemma new_pair_effects_no_cache known_pairs (a : polled_asset) pairs :
  save_cache pairs ∉ (new_pair_effects known_pairs a).1.
Proof.
  destruct (new_pair_effects_cases known_pairs a)
    as [[-> _]|(id & d & _ & _ & _ & _ & _ & [[_ ->]|[_ ->]])];
    cbn [fst]; intros Hin;
    repeat (apply elem_of_cons in Hin as [Hin|Hin]; [discriminate Hin|]);
    by apply elem_of_nil in Hin.
Qed.

Lemma process_assets_no_cache known_pairs (tokens : list polled_asset)
    current_pairs pairs :
  save_cache pairs ∉ (process_assets known_pairs tokens current_pairs).2.
Proof.
  revert current_pairs. induction tokens as [|a rest IH]; intros current_pairs; simpl.
  { apply not_elem_of_nil. }
  specialize (IH (current_pairs ∪ {[ name a.1 ]})).
  pose proof (new_pair_effects_no_cache known_pairs a pairs) as Hcalls.
  destruct (new_pair_effects known_pairs a) as [calls [|]]; [|done].
  destruct (process_assets known_pairs rest _) as [final_pairs log]. simpl in *.
  by intros [?|?]%elem_of_app.
Qed.












(** A snapshot that names a new pair twice alerts it twice in one cycle:
    [known_pairs] is replaced after the loop, not updated inside it. *)
Example pair_listed_twice_alerted_twice :
  alerts_for "XYZ"
    (check_for_updates ∅
       (Some [(Scenario.xyz_asset, Some Scenario.xyz_details);
              (Scenario.xyz_asset, Some Scenario.xyz_details)])).2 = 2.
Proof. vm_compute. reflexivity. Qed.

(** A cycle that an exception ends stores nothing, so the pairs it had
    notified are notified again by the next cycle: here [XYZ], listed before
    a pair whose total supply cannot be printed. *)
Example pair_alerted_again_after_exception :
  let snapshot :=
    Some [(Scenario.xyz_asset, Some Scenario.xyz_details);
          (Scenario.abc_asset, Some Scenario.abc_unprintable)] in
  run ∅ [snapshot; snapshot] =
    (∅,
     [save_token_details "0x1" Scenario.xyz_details;
      notify_new_pair "XYZ" Scenario.xyz_details;
      send_discord_alert "XYZ" Scenario.xyz_details;
      save_token_details "0x2" Scenario.abc_unprintable;
      notify_new_pair "ABC" Scenario.abc_unprintable;
      send_system_alert;
      save_token_details "0x1" Scenario.xyz_details;
      notify_new_pair "XYZ" Scenario.xyz_details;
      send_discord_alert "XYZ" Scenario.xyz_details;
      save_token_details "0x2" Scenario.abc_unprintable;
      notify_new_pair "ABC" Scenario.abc_unprintable;
      send_system_alert]).
Proof. vm_compute. reflexivity. Qed.

(** *** Which assets are notified *)

Lemma new_pair_effects_alert known_pairs (a : polled_asset) pair details :
  notify_new_pair pair details ∈ (new_pair_effects known_pairs a).1 ↔
  name a.1 = pair ∧ a.2 = Some details ∧ (pair ∉ known_pairs) ∧
  truthy_id (tokenId a.1) = true ∧ truthy_details (Some details) = true.
Proof.
  destruct (new_pair_effects_cases known_pairs a)
    as [[-> Hnot]|(id & d & Hid & Hreply & Hnew & Htid & Hdetails & Hcalls)].
  - cbn [fst]. rewrite elem_of_nil. split; [done|].
    intros (<- & Hreply & Hrest). destruct Hnot. by rewrite Hreply.
  - assert (notify_new_pair pair details ∈ (new_pair_effects known_pairs a).1 ↔
            name a.1 = pair ∧ d = details) as ->.
    { destruct Hcalls as [[_ ->]|[_ ->]]; cbn [fst];
        rewrite !elem_of_cons, elem_of_nil; split;
        try (intros (-> & ->); right; by left).
      - by intros [[=]|[[= <- <-]|[[=]|[]]]].
      - by intros [[=]|[[= <- <-]|[]]]. }
    rewrite Hreply. split.
    + by intros [<- <-].
    + by intros (<- & [= <-] & _).
Qed.







(** *** The cache file and a restart *)

Lemma run_app known_pairs (before after : list market_data) :
  run known_pairs (before ++ after) =
  ((run (run known_pairs before).1 after).1,
   (run known_pairs before).2 ++ (run (run known_pairs before).1 after).2).
Proof.
  revert known_pairs. induction before as [|reply before IH]; intros known_pairs.
  { simpl. by destruct (run known_pairs after). }
  simpl. destruct (check_for_updates known_pairs reply) as [known1 log1].
  rewrite IH. destruct (run known1 before) as [known2 log2]. simpl.
  by rewrite !(assoc_L (++)).
Qed.

Lemma cache_after_app cache (log1 log2 : list effect) :
  cache_after cache (log1 ++ log2) = cache_after (cache_after cache log1) log2.
Proof.
  revert cache. induction log1 as [|e log1 IH]; intros cache; [done|].
  destruct e; simpl; apply IH.
Qed.

Lemma cache_after_none cache (log : list effect) :
  (∀ pairs, save_cache pairs ∉ log) → cache_after cache log = cache.
Proof.
  induction log as [|e log IH]; intros Hnone; [done|].
  assert (∀ pairs, save_cache pairs ∉ log) as Hrest.
  { intros pairs Hin. apply (Hnone pairs). by right. }
  destruct e; simpl; try by apply IH.
  destruct (Hnone known_pairs). left.
Qed.

Lemma cache_after_cycle cache known_pairs (reply : market_data) :
  load_cache cache = known_pairs →
  load_cache (cache_after cache (check_for_updates known_pairs reply).2) =
    (check_for_updates known_pairs reply).1.
Proof.
  intros Hcache. destruct reply as [tokens|]; [|done].
  unfold check_for_updates.
  pose proof (process_assets_no_cache known_pairs tokens ∅) as Hnone.
  destruct (process_assets known_pairs tokens ∅) as [[current_pairs|] log]; simpl in *.
  - rewrite cache_after_app. simpl. apply list_to_set_elements_L.
  - by rewrite cache_after_none.
Qed.

Lemma cache_after_run cache known_pairs (cycles : list market_data) :
  load_cache cache = known_pairs →
  load_cache (cache_after cache (run known_pairs cycles).2) =
    (run known_pairs cycles).1.
Proof.
  revert cache known_pairs.
  induction cycles as [|reply later IH]; intros cache known_pairs Hcache; [done|].
  simpl.
  pose proof (cache_after_cycle cache known_pairs reply Hcache) as Hcycle.
  destruct (check_for_updates known_pairs reply) as [known1 log1]. simpl in *.
  specialize (IH (cache_after cache log1) known1 Hcycle).
  destruct (run known1 later) as [known2 log2]. simpl in *.
  rewrite !cache_after_app.
  by destruct (raises known_pairs reply).
Qed.

(** X13.  A restart changes nothing.  A monitor started from a cache file that is
    stopped after some cycles and started again from the cache file as those
    cycles left it has the known pairs, and makes the effects, of a monitor
    that ran without interruption. *)
Theorem restart_resumes_from_the_cache cache (before after : list market_data) :
  run (load_cache cache) (before ++ after) =
  ((run (load_cache (cache_after cache (run (load_cache cache) before).2)) after).1,
   (run (load_cache cache) before).2 ++
   (run (load_cache (cache_after cache (run (load_cache cache) before).2)) after).2).
Proof.
  rewrite run_app. by rewrite (cache_after_run cache (load_cache cache) before).
Qed.

(** *** No alert for a pair of the last snapshot *)





(** *** Token details are saved before the alert *)

Lemma new_pair_effects_saves known_pairs (a : polled_asset) pair details :
  notify_new_pair pair details ∈ (new_pair_effects known_pairs a).1 →
  ∃ token_id after,
    (new_pair_effects known_pairs a).1 =
      save_token_details token_id details :: notify_new_pair pair details :: after ∧
    a.2 = Some details ∧ name a.1 = pair ∧ tokenId a.1 = Some token_id.
Proof.
  intros Hin.
  pose proof (proj1 (new_pair_effects_alert known_pairs a pair details) Hin)
    as (Hname & Hreply & _).
  destruct (new_pair_effects_cases known_pairs a)
    as [[Hnone _]|(id & d & Hid & Hd & _ & _ & _ & Hcalls)].
  { rewrite Hnone in Hin. by apply elem_of_nil in Hin. }
  rewrite Hreply in Hd. injection Hd as <-. rewrite Hname in Hcalls.
  destruct Hcalls as [[_ ->]|[_ ->]]; eexists id, _; by split_and!.
Qed.

Lemma process_assets_saves known_pairs (tokens : list polled_asset)
    current_pairs pair details :
  notify_new_pair pair details ∈
    (process_assets known_pairs tokens current_pairs).2 →
  ∃ before after token_id a,
    (process_assets known_pairs tokens current_pairs).2 =
      before ++ save_token_details token_id details ::
                notify_new_pair pair details :: after ∧
    (a, Some details) ∈ tokens ∧ name a = pair ∧ tokenId a = Some token_id.
Proof.
  revert current_pairs. induction tokens as [|a rest IH]; intros current_pairs; simpl.
  { by intros ?%elem_of_nil. }
  specialize (IH (current_pairs ∪ {[ name a.1 ]})).
  pose proof (new_pair_effects_saves known_pairs a pair details) as Hhere.
  destruct (new_pair_effects known_pairs a) as [calls returned].
  destruct (process_assets known_pairs rest _) as [final_pairs log]. simpl in *.
  assert ((a.1, Some details) ∈ a :: rest ↔ a.2 = Some details ∨ (a.1, Some details) ∈ rest)
    as Hfirst.
  { rewrite elem_of_cons. destruct a as [b reply]. simpl. split.
    - intros [[= <-]|?]; [by left|by right].
    - intros [->|?]; [by left|by right]. }
  destruct returned; simpl.
  - intros [Hin|Hin]%elem_of_app.
    + destruct (Hhere Hin) as (token_id & after & -> & Hreply & Hname & Hid).
      exists [], (after ++ log), token_id, a.1.
      split_and!; [done| |done..]. apply Hfirst. by left.
    + destruct (IH Hin) as (before & after & token_id & b & -> & Hb & Hrest).
      exists (calls ++ before), after, token_id, b.
      split_and!; [by rewrite (assoc_L (++))|by right|apply Hrest..].
  - intros Hin.
    destruct (Hhere Hin) as (token_id & after & -> & Hreply & Hname & Hid).
    exists [], after, token_id, a.1.
    split_and!; [done| |done..]. apply Hfirst. by left.
Qed.

(** X15.  Every new-pair notification of a cycle comes right after the call that
    saves the token details it reports, under the token id of the asset it
    names. *)
Theorem details_saved_before_the_alert known_pairs (tokens : list polled_asset)
    pair details :
  notify_new_pair pair details ∈ (check_for_updates known_pairs (Some tokens)).2 →
  ∃ before after token_id a,
    (check_for_updates known_pairs (Some tokens)).2 =
      before ++ save_token_details token_id details ::
                notify_new_pair pair details :: after ∧
    (a, Some details) ∈ tokens ∧ name a = pair ∧ tokenId a = Some token_id.
Proof.
  unfold check_for_updates.
  pose proof (process_assets_saves known_pairs tokens ∅ pair details) as Hsaves.
  destruct (process_assets known_pairs tokens ∅) as [[current_pairs|] log];
    simpl in *.
  - intros [Hin|Hin]%elem_of_app; last first.
    { by apply list_elem_of_singleton in Hin. }
    destruct (Hsaves Hin) as (before & after & token_id & a & -> & Hrest).
    exists before, (after ++ [save_cache current_pairs]), token_id, a.
    split; [|done]. by rewrite <- (assoc_L (++)).
  - intros Hin.
    destruct (Hsaves Hin) as (before & after & token_id & a & -> & Hrest).
    by exists before, after, token_id, a.
Qed.

Lemma details_saved_witness_alert :
  notify_new_pair "XYZ" Scenario.xyz_details ∈
  (check_for_updates ∅ (Some [(Scenario.xyz_asset, Some Scenario.xyz_details)])).2.
Proof. apply list_elem_of_In. vm_compute. right. left. reflexivity. Qed.

Lemma details_saved_before_the_alert_witness :
  ∃ before after token_id a,
    (check_for_updates ∅ (Some [(Scenario.xyz_asset, Some Scenario.xyz_details)])).2 =
      before ++ save_token_details token_id Scenario.xyz_details ::
                notify_new_pair "XYZ" Scenario.xyz_details :: after ∧
    (a, Some Scenario.xyz_details) ∈ [(Scenario.xyz_asset, Some Scenario.xyz_details)] ∧
    name a = "XYZ" ∧ tokenId a = Some token_id.
Proof.
  apply (details_saved_before_the_alert ∅
           [(Scenario.xyz_asset, Some Scenario.xyz_details)] "XYZ"
           Scenario.xyz_details).
  exact details_saved_witness_alert.
Defined.

(** *** From the pair monitor to the token details monitor *)


(** X16.  The file that [save_token_details] writes has a name that
    [check_for_changes] accepts, and unless the token id itself contains
    [.json], that monitor recovers the token id from the name. *)
Theorem details_file_names_its_token (token_id : string) :
  endswith (details_filename token_id) ".json" = true ∧
  (contains ".json" token_id = false →
   TokenDetails.token_id_of (details_filename token_id) = token_id).
Proof.
  split; [apply endswith_app|]. apply replace_json_suffix.
Qed.

Lemma details_file_names_its_token_witness :
  endswith (details_filename "0x1") ".json" = true ∧
  TokenDetails.token_id_of (details_filename "0x1") = "0x1".
Proof.
  split.
  - apply (proj1 (details_file_names_its_token "0x1")).
  - apply (proj2 (details_file_names_its_token "0x1")). reflexivity.
Defined.

(** A token id that contains [.json] is not recovered. *)
Example token_id_with_suffix_inside :
  TokenDetails.token_id_of (details_filename "a.json") = "a".
Proof. reflexivity. Qed.



End HyperLiquidFacts.
